(** * Integration harness of the nano-banana MCP server (src/test-integration.ts)

    A shallow embedding of [IntegrationTester] and of the parts of the
    JavaScript platform it calls (strings, [JSON.stringify], [JSON.parse],
    [String.prototype.includes], [fs/promises], [child_process.spawn]),
    followed by the properties of the harness.

    Conventions
    - a JavaScript string is the list of its UTF-16 code units, each an [N]
      below 65536;
    - every path the harness builds is [path.join(process.cwd(), p)]; the
      file system is keyed by [p], the path relative to the project root;
    - a check is a computation in the monad [M]: it threads the harness
      state (file system, [this.results], console) and ends normally, by a
      thrown exception, by process termination or never. *)

From Stdlib Require Import ZArith NArith List String Ascii DecimalString Lia.
From stdpp Require Import base option list gmap.

Set Warnings "-register-all".
Local Open Scope N_scope.

(* ===================================================================== *)
(** ** JavaScript strings *)
(* ===================================================================== *)

Module JsString.

(** UTF-16 code units. *)
Abbreviation jsstring := (list N).

Definition ch (a : ascii) : N := N_of_ascii a.

(** An ASCII literal as a JavaScript string. *)
Fixpoint js (s : string) : jsstring :=
  match s with
  | EmptyString => []
  | String a s' => ch a :: js s'
  end.

Definition is_leading_surrogate (c : N) : bool := (0xD800 <=? c) && (c <=? 0xDBFF).
Definition is_trailing_surrogate (c : N) : bool := (0xDC00 <=? c) && (c <=? 0xDFFF).
Definition is_surrogate (c : N) : bool := (0xD800 <=? c) && (c <=? 0xDFFF).

(** [prefix.startsWith]-style test: is [p] a prefix of [s]? *)
Fixpoint starts_with (p s : jsstring) : bool :=
  match p, s with
  | [], _ => true
  | _ :: _, [] => false
  | a :: p', b :: s' => (a =? b) && starts_with p' s'
  end.

(** [String.prototype.includes]: plain code-unit substring containment. *)
Fixpoint includes (s t : jsstring) : bool :=
  starts_with t s ||
  match s with
  | [] => false
  | _ :: s' => includes s' t
  end.

(** [Number.prototype.toString] for a non-negative integer. *)
Definition decimal (n : N) : jsstring := js (NilEmpty.string_of_uint (N.to_uint n)).

(** [String.prototype.repeat]. *)
Fixpoint repeat_str (s : jsstring) (n : nat) : jsstring :=
  match n with
  | O => []
  | S n' => s ++ repeat_str s n'
  end.

(** What a string becomes when it is written to a file as UTF-8 and the
    file is decoded again: a surrogate that is not part of a pair is
    encoded as U+FFFD, everything else survives. *)
Fixpoint utf8_roundtrip (s : jsstring) : jsstring :=
  match s with
  | [] => []
  | c :: rest =>
      if is_leading_surrogate c then
        match rest with
        | d :: rest' =>
            if is_trailing_surrogate d then c :: d :: utf8_roundtrip rest'
            else 0xFFFD :: utf8_roundtrip rest
        | [] => [0xFFFD]
        end
      else if is_trailing_surrogate c then 0xFFFD :: utf8_roundtrip rest
      else c :: utf8_roundtrip rest
  end.

End JsString.
Export JsString.

(* ===================================================================== *)
(** ** Errors *)
(* ===================================================================== *)

Record JsError := mkError { ename : jsstring; emessage : jsstring }.

(** [Error.prototype.toString], which [`${error}`] calls. *)
Definition error_toString (e : JsError) : jsstring :=
  match ename e, emessage e with
  | [], m => m
  | n, [] => n
  | n, m => n ++ js ": " ++ m
  end.

Definition SyntaxError (m : jsstring) : JsError := mkError (js "SyntaxError") m.
Definition TypeError (m : jsstring) : JsError := mkError (js "TypeError") m.
Definition SystemError (code syscall path : jsstring) (desc : jsstring) : JsError :=
  mkError (js "Error")
          (code ++ js ": " ++ desc ++ js ", " ++ syscall ++ js " '" ++ path ++ js "'").

(* ===================================================================== *)
(** ** JSON *)
(* ===================================================================== *)

Module Json.

(** The values [JSON.parse] builds. A number keeps the exact decimal value
    of its literal, [(-1)^neg * digits * 10^exp10]. *)
Inductive JSON :=
| JNull
| JBool (b : bool)
| JNumber (neg : bool) (digits : N) (exp10 : Z)
| JString (s : jsstring)
| JArray (xs : list JSON)
| JObject (props : list (jsstring * JSON)).

(** *** Serialisation: QuoteJSONString (ECMA-262, 25.5.2.3) *)

Definition hex_digit (d : N) : N :=
  if d <? 10 then ch "0" + d else ch "a" + (d - 10).

(** UnicodeEscape: a backslash, [u] and four lowercase hexadecimal digits. *)
Definition UnicodeEscape (c : N) : jsstring :=
  [ch "\"; ch "u";
   hex_digit (c / 4096 mod 16); hex_digit (c / 256 mod 16);
   hex_digit (c / 16 mod 16); hex_digit (c mod 16)].

(** One code unit that is not part of a surrogate pair. *)
Definition quote_unit (c : N) : jsstring :=
  if c =? 0x08 then js "\b"
  else if c =? 0x09 then js "\t"
  else if c =? 0x0A then js "\n"
  else if c =? 0x0C then js "\f"
  else if c =? 0x0D then js "\r"
  else if c =? 0x22 then [ch "\"; 0x22]
  else if c =? 0x5C then js "\\"
  else if (c <? 0x20) || is_surrogate c then UnicodeEscape c
  else [c].

(** The code points of the string, in order: a leading surrogate followed
    by a trailing one is a single code point and is copied as it is. *)
Fixpoint quote_units (s : jsstring) : jsstring :=
  match s with
  | [] => []
  | c :: rest =>
      if is_leading_surrogate c then
        match rest with
        | d :: rest' =>
            if is_trailing_surrogate d then c :: d :: quote_units rest'
            else quote_unit c ++ quote_units rest
        | [] => quote_unit c
        end
      else quote_unit c ++ quote_units rest
  end.

Definition QuoteJSONString (s : jsstring) : jsstring :=
  0x22 :: quote_units s ++ [0x22].

(** *** Parsing: the JSON grammar of ECMA-404, as [JSON.parse] reads it *)

(** The outcome of a parsing function: a value and the input left, the input
    at which the text stops being JSON, or recursion budget exhausted. *)
Inductive Parsed (A : Type) :=
| POk (a : A) (rest : jsstring)
| PErr (at_input : jsstring)
| PFuel.
Arguments POk {A} a rest.
Arguments PErr {A} at_input.
Arguments PFuel {A}.

Definition pmap {A B} (f : A -> B) (p : Parsed A) : Parsed B :=
  match p with
  | POk a rest => POk (f a) rest
  | PErr i => PErr i
  | PFuel => PFuel
  end.

Definition is_ws (c : N) : bool :=
  (c =? 0x20) || (c =? 0x09) || (c =? 0x0A) || (c =? 0x0D).

Fixpoint skip_ws (s : jsstring) : jsstring :=
  match s with
  | c :: rest => if is_ws c then skip_ws rest else s
  | [] => []
  end.

Definition is_digit (c : N) : bool := (ch "0" <=? c) && (c <=? ch "9").

Definition hex_value (c : N) : option N :=
  if is_digit c then Some (c - ch "0")
  else if (ch "a" <=? c) && (c <=? ch "f") then Some (c - ch "a" + 10)
  else if (ch "A" <=? c) && (c <=? ch "F") then Some (c - ch "A" + 10)
  else None.

Definition hex4 (h1 h2 h3 h4 : N) : option N :=
  match hex_value h1, hex_value h2, hex_value h3, hex_value h4 with
  | Some a, Some b, Some c, Some d => Some (((a * 16 + b) * 16 + c) * 16 + d)
  | _, _, _, _ => None
  end.

(** The character after a backslash, for the two-character escapes. *)
Definition simple_escape (e : N) : option N :=
  if e =? ch "b" then Some 0x08
  else if e =? ch "t" then Some 0x09
  else if e =? ch "n" then Some 0x0A
  else if e =? ch "f" then Some 0x0C
  else if e =? ch "r" then Some 0x0D
  else if e =? 0x22 then Some 0x22
  else if e =? ch "/" then Some (ch "/")
  else if e =? ch "\" then Some (ch "\")
  else None.

(** The characters of a string literal, after its opening quote and up to
    and including its closing quote. *)
Fixpoint parse_chars (s : jsstring) : Parsed jsstring :=
  match s with
  | [] => PErr []
  | c :: rest =>
      if c =? 0x22 then POk [] rest
      else if c =? ch "\" then
        match rest with
        | [] => PErr []
        | e :: rest1 =>
            match simple_escape e with
            | Some u => pmap (cons u) (parse_chars rest1)
            | None =>
                if e =? ch "u" then
                  match rest1 with
                  | h1 :: h2 :: h3 :: h4 :: rest2 =>
                      match hex4 h1 h2 h3 h4 with
                      | Some u => pmap (cons u) (parse_chars rest2)
                      | None => PErr rest1
                      end
                  | _ => PErr rest1
                  end
                else PErr rest
            end
        end
      else if c <? 0x20 then PErr s
      else pmap (cons c) (parse_chars rest)
  end.

(** A run of decimal digits: the number they spell after [acc], how many
    there are, and the input left. *)
Fixpoint digits_run (acc : N) (count : nat) (s : jsstring) : N * nat * jsstring :=
  match s with
  | c :: rest =>
      if is_digit c then digits_run (acc * 10 + (c - ch "0")) (S count) rest
      else (acc, count, s)
  | [] => (acc, count, [])
  end.

(** exponent := (e | E) (+ | -)? digit+ *)
Definition parse_exponent (s : jsstring) : Parsed Z :=
  match s with
  | c :: rest =>
      if (c =? ch "e") || (c =? ch "E") then
        let '(sign, body) :=
          match rest with
          | d :: rest' =>
              if d =? ch "-" then (true, rest')
              else if d =? ch "+" then (false, rest')
              else (false, rest)
          | [] => (false, rest)
          end in
        match digits_run 0 0 body with
        | (_, O, r) => PErr r
        | (e, S _, r) => POk (if sign then - Z.of_N e else Z.of_N e)%Z r
        end
      else POk 0%Z s
  | [] => POk 0%Z []
  end.

(** number := -? (0 | [1-9] digit* ) (. digit+)? exponent? *)
Definition parse_number (s : jsstring) : Parsed JSON :=
  let '(neg, s1) :=
    match s with
    | c :: rest => if c =? ch "-" then (true, rest) else (false, s)
    | [] => (false, s)
    end in
  let int_part :=
    match s1 with
    | c :: rest =>
        if c =? ch "0" then POk 0 rest
        else if is_digit c then
          let '(n, _, r) := digits_run 0 0 s1 in POk n r
        else PErr s1
    | [] => PErr []
    end in
  match int_part with
  | POk i s2 =>
      let frac_part :=
        match s2 with
        | c :: rest =>
            if c =? ch "." then
              match digits_run i 0 rest with
              | (_, O, r) => PErr r
              | (m, S k, r) => POk (m, - Z.of_nat (S k))%Z r
              end
            else POk (i, 0%Z) s2
        | [] => POk (i, 0%Z) []
        end in
      match frac_part with
      | POk (m, shift) s3 =>
          match parse_exponent s3 with
          | POk e s4 => POk (JNumber neg m (e + shift)) s4
          | PErr i => PErr i
          | PFuel => PFuel
          end
      | PErr i => PErr i
      | PFuel => PFuel
      end
  | PErr i => PErr i
  | PFuel => PFuel
  end.

(** A keyword ([true], [false], [null]) at the head of the input. *)
Fixpoint parse_keyword (kw : jsstring) (v : JSON) (s : jsstring) : Parsed JSON :=
  match kw, s with
  | [], _ => POk v s
  | k :: kw', c :: rest => if k =? c then parse_keyword kw' v rest else PErr s
  | _ :: _, [] => PErr []
  end.

(** value, elements of an array after its bracket, members of an object
    after its brace. Each call spends one unit of [fuel]. *)
Fixpoint parse_value (fuel : nat) (s : jsstring) : Parsed JSON :=
  match fuel with
  | O => PFuel
  | S fuel' =>
      match skip_ws s with
      | [] => PErr []
      | c :: rest =>
          if c =? 0x22 then pmap JString (parse_chars rest)
          else if c =? ch "[" then
            match skip_ws rest with
            | d :: rest' =>
                if d =? ch "]" then POk (JArray []) rest'
                else parse_elements fuel' [] rest
            | [] => PErr []
            end
          else if c =? ch "{" then
            match skip_ws rest with
            | d :: rest' =>
                if d =? ch "}" then POk (JObject []) rest'
                else parse_members fuel' [] rest
            | [] => PErr []
            end
          else if c =? ch "t" then parse_keyword (js "true") (JBool true) (c :: rest)
          else if c =? ch "f" then parse_keyword (js "false") (JBool false) (c :: rest)
          else if c =? ch "n" then parse_keyword (js "null") JNull (c :: rest)
          else if (c =? ch "-") || is_digit c then parse_number (c :: rest)
          else PErr (c :: rest)
      end
  end
with parse_elements (fuel : nat) (acc : list JSON) (s : jsstring) : Parsed JSON :=
  match fuel with
  | O => PFuel
  | S fuel' =>
      match parse_value fuel' s with
      | POk v r =>
          match skip_ws r with
          | d :: r' =>
              if d =? ch "," then parse_elements fuel' (v :: acc) r'
              else if d =? ch "]" then POk (JArray (rev (v :: acc))) r'
              else PErr (d :: r')
          | [] => PErr []
          end
      | PErr i => PErr i
      | PFuel => PFuel
      end
  end
with parse_members (fuel : nat) (acc : list (jsstring * JSON)) (s : jsstring) : Parsed JSON :=
  match fuel with
  | O => PFuel
  | S fuel' =>
      match skip_ws s with
      | [] => PErr []
      | q :: r0 =>
          if q =? 0x22 then
            match parse_chars r0 with
            | POk key r1 =>
                match skip_ws r1 with
                | colon :: r2 =>
                    if colon =? ch ":" then
                      match parse_value fuel' r2 with
                      | POk v r3 =>
                          match skip_ws r3 with
                          | d :: r4 =>
                              if d =? ch "," then parse_members fuel' ((key, v) :: acc) r4
                              else if d =? ch "}" then POk (JObject (rev ((key, v) :: acc))) r4
                              else PErr (d :: r4)
                          | [] => PErr []
                          end
                      | PErr i => PErr i
                      | PFuel => PFuel
                      end
                    else PErr (colon :: r2)
                | [] => PErr []
                end
            | PErr i => PErr i
            | PFuel => PFuel
            end
          else PErr (q :: r0)
      end
  end.

(** Recursion budget that no text exhausts (see [parse_value_fuel]). *)
Definition parse_fuel (text : jsstring) : nat := 2 * length text + 1.

(** The message of the SyntaxError, after V8's "Unexpected token". *)
Definition syntax_error (text at_input : jsstring) : JsError :=
  match at_input with
  | [] => SyntaxError (js "Unexpected end of JSON input")
  | c :: _ =>
      SyntaxError (js "Unexpected token " ++ [c] ++ js " in JSON at position "
                   ++ decimal (N.of_nat (length text - length at_input)))
  end.

(** [JSON.parse(text)]: the value, or the SyntaxError it throws. *)
Definition JSON_parse (text : jsstring) : JsError + JSON :=
  match parse_value (parse_fuel text) text with
  | POk v rest =>
      match skip_ws rest with
      | [] => inr v
      | _ :: _ => inl (syntax_error text (skip_ws rest))
      end
  | PErr i => inl (syntax_error text i)
  | PFuel => inl (SyntaxError (js "Maximum call stack size exceeded"))
  end.

(** *** Property access and coercions on parsed values *)

(** A JavaScript value read out of parsed JSON; [None] is [undefined]. *)
Abbreviation JsValue := (option JSON).

(** Own property [key] of an object literal: its last definition wins. *)
Fixpoint own_property (props : list (jsstring * JSON)) (key : jsstring) : JsValue :=
  match props with
  | [] => None
  | (k, v) :: props' =>
      match own_property props' key with
      | Some v' => Some v'
      | None => if decide (k = key) then Some v else None
      end
  end.

(** [value[key]] for a key that no built-in prototype defines and that is
    neither an array index nor [length]. Reading a property of [null] or
    [undefined] throws. *)
Definition get_property (value : JsValue) (key : jsstring) : JsError + JsValue :=
  match value with
  | None =>
      inl (TypeError (js "Cannot read properties of undefined (reading '" ++ key ++ js "')"))
  | Some JNull =>
      inl (TypeError (js "Cannot read properties of null (reading '" ++ key ++ js "')"))
  | Some (JObject props) => inr (own_property props key)
  | Some _ => inr None
  end.

(** Is the double nearest to [digits * 10^exp10] zero? It is when the
    value is at most 2^-1075, half the least positive double. *)
Definition rounds_to_zero (digits : N) (exp10 : Z) : bool :=
  if digits =? 0 then true
  else if (0 <=? exp10)%Z then false
  else digits * 2 ^ 1075 <=? 10 ^ Z.to_N (- exp10).

(** ToBoolean. *)
Definition truthy (v : JsValue) : bool :=
  match v with
  | None => false
  | Some JNull => false
  | Some (JBool b) => b
  | Some (JNumber _ digits exp10) => negb (rounds_to_zero digits exp10)
  | Some (JString s) => negb (bool_decide (s = []))
  | Some (JArray _) => true
  | Some (JObject _) => true
  end.

(** [value === s] for a string [s]. *)
Definition strict_equals_string (v : JsValue) (s : jsstring) : bool :=
  match v with
  | Some (JString s') => bool_decide (s' = s)
  | _ => false
  end.

End Json.
Export Json.

(* ===================================================================== *)
(** ** The world the harness runs in *)
(* ===================================================================== *)

(** What a path names: a file, with its content decoded as UTF-8, or a
    directory. *)
Inductive Node :=
| File (text : jsstring)
| Dir.

Abbreviation FileSystem := (gmap jsstring Node).

Inductive FsOp := OpAccess | OpReadFile | OpWriteFile | OpUnlink.

Inductive Stream := Stdout | Stderr.

(** What the child process sends to the listeners of the harness: a chunk
    on one of its pipes (already [toString]ed), an ['error'] event, or
    ['close'] with the exit code ([None] when a signal ended the child). *)
Inductive ChildEvent :=
| DataEvent (from : Stream) (chunk : jsstring)
| ErrorEvent (e : JsError)
| CloseEvent (code : option Z).

(** One run of the harness happens in an environment that fixes
    - [fault]: the operations the operating system refuses although the
      path is there (EACCES, EIO, ENOSPC, ...), with the error it raises;
    - [spawn_build]: what [spawn('npm', ['run', 'build'])] does, an exception
      thrown by the call itself or the events of the child in order;
    - [build_effect]: what the child has done to the files by the time it
      closes. *)
Record Env := mkEnv {
  fault : FsOp -> jsstring -> option JsError;
  spawn_build : JsError + list ChildEvent;
  build_effect : FileSystem -> FileSystem
}.

(** interface TestResult *)
Record TestResult := mkResult {
  name : jsstring;
  passed : bool;
  message : jsstring
}.

(** The mutable state: the files, [this.results] and the lines printed. *)
Record State := mkState {
  fs : FileSystem;
  results : list TestResult;
  console : list jsstring
}.

(** How a computation ends: normally, by an exception on its way to the
    nearest [catch], by [process.exit], by an exception nothing can catch
    (thrown from an event callback), or not at all. *)
Inductive Completion (A : Type) :=
| Normal (a : A)
| Throw (e : JsError)
| Exit (code : Z)
| Uncaught (e : JsError)
| Pending.
Arguments Normal {A} a.
Arguments Throw {A} e.
Arguments Exit {A} code.
Arguments Uncaught {A} e.
Arguments Pending {A}.

Definition M (A : Type) : Type := State -> Completion A * State.

Definition ret {A} (a : A) : M A := fun st => (Normal a, st).

Definition bind {A B} (m : M A) (k : A -> M B) : M B :=
  fun st =>
    match m st with
    | (Normal a, st') => k a st'
    | (Throw e, st') => (Throw e, st')
    | (Exit c, st') => (Exit c, st')
    | (Uncaught e, st') => (Uncaught e, st')
    | (Pending, st') => (Pending, st')
    end.

Notation "'let*' x ':=' m 'in' k" := (bind m (fun x => k))
  (at level 10, x name, m at level 100, k at level 200).
Notation "m '>>' k" := (bind m (fun _ => k))
  (at level 90, right associativity).

Definition throw {A} (e : JsError) : M A := fun st => (Throw e, st).

(** try { body } catch (error) { handler } *)
Definition try_catch {A} (body : M A) (handler : JsError -> M A) : M A :=
  fun st =>
    match body st with
    | (Throw e, st') => handler e st'
    | other => other
    end.

(** A value or the exception its computation threw. *)
Definition lift {A} (r : JsError + A) : M A :=
  match r with
  | inl e => throw e
  | inr a => ret a
  end.

(** for (const x of xs) body(x) *)
Fixpoint for_of {A} (xs : list A) (body : A -> M unit) : M unit :=
  match xs with
  | [] => ret tt
  | x :: xs' => body x >> for_of xs' body
  end.

Definition process_exit {A} (code : Z) : M A := fun st => (Exit code, st).

Definition console_log (line : jsstring) : M unit :=
  fun st => (Normal tt, mkState (fs st) (results st) (console st ++ [line])).

(** The exit code of the process once [runAllTests] has ended as [c]: 0
    when the program runs to its end, the argument of [process.exit], 1 for
    an uncaught exception; a rejected promise is printed by the
    [.catch(console.error)] of the last line. *)
Definition exit_code (c : Completion unit) : option Z :=
  match c with
  | Normal _ => Some 0%Z
  | Throw _ => Some 0%Z
  | Exit code => Some code
  | Uncaught _ => Some 1%Z
  | Pending => None
  end.

Section Harness.

Variable env : Env.

(** *** fs/promises *)

Definition ENOENT (syscall path : jsstring) : JsError :=
  SystemError (js "ENOENT") syscall path (js "no such file or directory").
Definition EISDIR (syscall path : jsstring) : JsError :=
  SystemError (js "EISDIR") syscall path (js "illegal operation on a directory").

Definition fs_access (path : jsstring) : M unit :=
  fun st =>
    match fault env OpAccess path with
    | Some e => (Throw e, st)
    | None =>
        match fs st !! path with
        | Some _ => (Normal tt, st)
        | None => (Throw (ENOENT (js "access") path), st)
        end
    end.

Definition fs_readFile (path : jsstring) : M jsstring :=
  fun st =>
    match fault env OpReadFile path with
    | Some e => (Throw e, st)
    | None =>
        match fs st !! path with
        | Some (File text) => (Normal text, st)
        | Some Dir => (Throw (EISDIR (js "read") path), st)
        | None => (Throw (ENOENT (js "open") path), st)
        end
    end.

Definition fs_writeFile (path data : jsstring) : M unit :=
  fun st =>
    match fault env OpWriteFile path with
    | Some e => (Throw e, st)
    | None =>
        match fs st !! path with
        | Some Dir => (Throw (EISDIR (js "open") path), st)
        | _ =>
            (Normal tt,
             mkState (<[path := File (utf8_roundtrip data)]> (fs st))
                     (results st) (console st))
        end
    end.

Definition fs_unlink (path : jsstring) : M unit :=
  fun st =>
    match fault env OpUnlink path with
    | Some e => (Throw e, st)
    | None =>
        match fs st !! path with
        | Some (File _) =>
            (Normal tt, mkState (delete path (fs st)) (results st) (console st))
        | Some Dir => (Throw (EISDIR (js "unlink") path), st)
        | None => (Throw (ENOENT (js "unlink") path), st)
        end
    end.

(** *** class IntegrationTester *)

Definition check_mark : jsstring := [0x2705].
Definition cross_mark : jsstring := [0x274C].

(** private addResult(name, passed, message) *)
Definition addResult (name : jsstring) (passed : bool) (message : jsstring) : M unit :=
  fun st =>
    (Normal tt,
     mkState (fs st) (results st ++ [mkResult name passed message]) (console st)).

Definition requiredFiles : list jsstring :=
  [js "package.json"; js "tsconfig.json"; js "src/index.ts";
   js "README.md"; js ".gitignore"; js ".eslintrc.json"].

(** private async testProjectStructure() *)
Definition testProjectStructure : M unit :=
  for_of requiredFiles (fun file =>
    try_catch
      (fs_access file >>
       addResult (js "Project structure - " ++ file) true
                 (check_mark ++ js " " ++ file ++ js " exists"))
      (fun _ =>
       addResult (js "Project structure - " ++ file) false
                 (cross_mark ++ js " " ++ file ++ js " missing"))).

Definition requiredDeps : list jsstring :=
  [js "@modelcontextprotocol/sdk"; js "@google/generative-ai"; js "dotenv"; js "zod"].

(** private async testDependencies() *)
Definition testDependencies : M unit :=
  try_catch
    (let* text := fs_readFile (js "package.json") in
     let* packageJson := lift (JSON_parse text) in
     for_of requiredDeps (fun dep =>
       let* dependencies := lift (get_property (Some packageJson) (js "dependencies")) in
       let* version := lift (get_property dependencies dep) in
       if truthy version
       then addResult (js "Dependencies - " ++ dep) true
                      (check_mark ++ js " " ++ dep ++ js " found")
       else addResult (js "Dependencies - " ++ dep) false
                      (cross_mark ++ js " " ++ dep ++ js " missing")) >>
     try_catch
       (fs_access (js "node_modules") >>
        addResult (js "Dependencies - node_modules") true
                  (check_mark ++ js " Dependencies installed"))
       (fun _ =>
        addResult (js "Dependencies - node_modules") false
                  (cross_mark ++ js " Run npm install first")))
    (fun error =>
     addResult (js "Dependencies check") false
               (cross_mark ++ js " Failed to check dependencies: " ++ error_toString error)).

(** The listener of ['close']. *)
Definition on_close (code : option Z) (errorOutput : jsstring) : M unit :=
  if decide (code = Some 0%Z) then
    try_catch
      (fs_access (js "dist") >>
       addResult (js "Build process") true (check_mark ++ js " Build successful"))
      (fun _ =>
       addResult (js "Build process") false (cross_mark ++ js " Dist directory not created"))
  else
    addResult (js "Build process") false (cross_mark ++ js " Build failed: " ++ errorOutput).

(** The events of the child, delivered in order to the listeners that
    [testBuildProcess] registers: ['data'] on both pipes and ['close'], which
    resolves the promise. Nothing listens to ['error']: the emitter throws it
    and no frame of the harness is on the stack to catch it. When the events
    end without ['close'] the promise is never settled. *)
Fixpoint dispatch (events : list ChildEvent) (output errorOutput : jsstring) : M unit :=
  match events with
  | [] => fun st => (Pending, st)
  | DataEvent Stdout data :: events' => dispatch events' (output ++ data) errorOutput
  | DataEvent Stderr data :: events' => dispatch events' output (errorOutput ++ data)
  | ErrorEvent e :: _ => fun st => (Uncaught e, st)
  | CloseEvent code :: _ =>
      fun st =>
        on_close code errorOutput
                 (mkState (build_effect env (fs st)) (results st) (console st))
  end.

(** private async testBuildProcess(): the executor of the promise runs at
    once, and an exception of [spawn] rejects the promise. *)
Definition testBuildProcess : M unit :=
  let* events := lift (spawn_build env) in
  dispatch events [] [].

Record Config := mkConfig { geminiApiKey : jsstring }.

(** [JSON.stringify(config, null, 2)] for an object whose one property is
    the string [geminiApiKey]. *)
Definition JSON_stringify (config : Config) : jsstring :=
  js "{" ++ [0x0A] ++ js "  " ++ QuoteJSONString (js "geminiApiKey") ++ js ": "
     ++ QuoteJSONString (geminiApiKey config) ++ [0x0A] ++ js "}".

Definition configPath : jsstring := js ".nano-banana-config-test.json".

(** The body of [testConfigurationHandling] for the configuration object
    [testConfig]. *)
Definition configurationHandling (testConfig : Config) : M unit :=
  try_catch
    (fs_writeFile configPath (JSON_stringify testConfig) >>
     addResult (js "Configuration - Write") true (check_mark ++ js " Config file written") >>
     let* configData := fs_readFile configPath in
     let* parsedConfig := lift (JSON_parse configData) in
     let* readKey := lift (get_property (Some parsedConfig) (js "geminiApiKey")) in
     (if strict_equals_string readKey (geminiApiKey testConfig)
      then addResult (js "Configuration - Read") true
                     (check_mark ++ js " Config file read correctly")
      else addResult (js "Configuration - Read") false
                     (cross_mark ++ js " Config data mismatch")) >>
     fs_unlink configPath >>
     addResult (js "Configuration - Cleanup") true (check_mark ++ js " Test config cleaned up"))
    (fun error =>
     addResult (js "Configuration handling") false
               (cross_mark ++ js " Configuration test failed: " ++ error_toString error)).

(** private async testConfigurationHandling() *)
Definition testConfigurationHandling : M unit :=
  configurationHandling (mkConfig (js "test-api-key-for-integration-testing")).

Definition requiredElements : list jsstring :=
  [js "configure_gemini_token"; js "generate_image"; js "edit_image";
   js "get_configuration_status"; js "GoogleGenerativeAI"; js "gemini-3-pro-image-preview"].

(** The three records of [mimeTypeTests]; the method never reads them. *)
Definition mimeTypeTests : list (jsstring * jsstring) :=
  [(js "test.jpg", js "image/jpeg"); (js "test.png", js "image/png");
   (js "test.webp", js "image/webp")].

Definition hasMimeTypeLogic (sourceCode : jsstring) : bool :=
  includes sourceCode (js "getMimeType") ||
  includes sourceCode (js "image/jpeg") ||
  includes sourceCode (js "image/png").

(** private async testToolSchema() *)
Definition testToolSchema : M unit :=
  try_catch
    (let* sourceCode := fs_readFile (js "src/index.ts") in
     for_of requiredElements (fun element =>
       if includes sourceCode element
       then addResult (js "Tool Schema - " ++ element) true
                      (check_mark ++ js " " ++ element ++ js " found")
       else addResult (js "Tool Schema - " ++ element) false
                      (cross_mark ++ js " " ++ element ++ js " missing")) >>
     addResult (js "MIME type handling") (hasMimeTypeLogic sourceCode)
               (if hasMimeTypeLogic sourceCode
                then check_mark ++ js " MIME type logic found"
                else cross_mark ++ js " MIME type logic missing"))
    (fun error =>
     addResult (js "Tool Schema validation") false
               (cross_mark ++ js " Schema test failed: " ++ error_toString error)).

Definition rule : jsstring := repeat_str [0x2550] 50.

(** private printResults() *)
Definition printResults : M unit :=
  fun st =>
    let passed_count := N.of_nat (length (filter (fun r => passed r = true) (results st))) in
    let total := N.of_nat (length (results st)) in
    (console_log ([0x0A; 0xD83D; 0xDCCB] ++ js " Integration Test Results:") >>
     console_log rule >>
     for_of (results st) (fun result =>
       console_log ((if passed result then check_mark else cross_mark)
                    ++ js " " ++ message result)) >>
     console_log rule >>
     console_log ([0xD83D; 0xDCCA] ++ js " Results: " ++ decimal passed_count
                  ++ js "/" ++ decimal total ++ js " tests passed") >>
     if passed_count =? total then
       console_log ([0xD83C; 0xDF89] ++
         js " All integration tests passed! The nano-banana MCP server is ready to use.") >>
       console_log ([0x0A; 0xD83D; 0xDCD6] ++ js " Next steps:") >>
       console_log (js "1. Get a Gemini API key from Google AI Studio") >>
       console_log (js "2. Configure your MCP client (Claude Desktop, etc.)") >>
       console_log (js "3. Use the configure_gemini_token tool to set up your API key") >>
       console_log (js "4. Start generating and editing images with nano-banana!")
     else
       console_log ([0x26A0; 0xFE0F] ++
         js "  Some tests failed. Please fix the issues before using the server.") >>
       process_exit 1%Z) st.

(** The five checks in the order [runAllTests] awaits them. *)
Definition checks : M unit :=
  testProjectStructure >>
  testDependencies >>
  testBuildProcess >>
  testConfigurationHandling >>
  testToolSchema.

(** async runAllTests(); of what [console.error] prints after the text, the
    line keeps the [toString] of the error. *)
Definition runAllTests : M unit :=
  console_log ([0xD83D; 0xDE80] ++
    js " Starting nano-banana MCP server integration tests..." ++ [0x0A]) >>
  try_catch
    (checks >> printResults)
    (fun error =>
     console_log (cross_mark ++ js " Integration tests failed: " ++ error_toString error) >>
     process_exit 1%Z).

End Harness.

(** A run of the program from the files [files]: how [runAllTests] ends and
    the state it leaves. *)
Definition run (env : Env) (files : FileSystem) : Completion unit * State :=
  runAllTests env (mkState files [] []).

(* ===================================================================== *)
(** ** Sample projects *)
(* ===================================================================== *)

Module Sample.

Definition no_fault : FsOp -> jsstring -> option JsError := fun _ _ => None.

(** A manifest that declares the four dependencies. *)
Definition manifest : jsstring :=
  js "{ " ++ QuoteJSONString (js "name") ++ js ": " ++ QuoteJSONString (js "nano-banana") ++
  js ", " ++ QuoteJSONString (js "dependencies") ++ js ": { " ++
  QuoteJSONString (js "@modelcontextprotocol/sdk") ++ js ": " ++ QuoteJSONString (js "^1.0.0") ++ js ", " ++
  QuoteJSONString (js "@google/generative-ai") ++ js ": " ++ QuoteJSONString (js "^0.21.0") ++ js ", " ++
  QuoteJSONString (js "dotenv") ++ js ": " ++ QuoteJSONString (js "^16.4.5") ++ js ", " ++
  QuoteJSONString (js "zod") ++ js ": " ++ QuoteJSONString (js "^3.23.8") ++ js " } }".

(** A source text that names every required element. *)
Definition source : jsstring :=
  js "configure_gemini_token generate_image edit_image get_configuration_status " ++
  js "GoogleGenerativeAI gemini-3-pro-image-preview getMimeType image/jpeg".

Definition project : FileSystem :=
  list_to_map
    [(js "package.json", File manifest);
     (js "tsconfig.json", File (js "{}"));
     (js "src/index.ts", File source);
     (js "README.md", File (js "# nano-banana"));
     (js ".gitignore", File (js "node_modules"));
     (js ".eslintrc.json", File (js "{}"));
     (js "node_modules", Dir)].

(** A build that prints a line, creates [dist] and exits with 0. *)
Definition good_build : Env :=
  mkEnv no_fault
        (inr [DataEvent Stdout (js "> tsc"); CloseEvent (Some 0%Z)])
        (fun files => <[js "dist" := Dir]> files).

(** The same build, and a file that may be created but not read
    (a umask that withholds the read permission). *)
Definition EACCES (syscall path : jsstring) : JsError :=
  SystemError (js "EACCES") syscall path (js "permission denied").

Definition unreadable_config : Env :=
  mkEnv (fun op path =>
           match op with
           | OpReadFile =>
               if decide (path = configPath) then Some (EACCES (js "open") path) else None
           | _ => None
           end)
        (inr [DataEvent Stdout (js "> tsc"); CloseEvent (Some 0%Z)])
        (fun files => <[js "dist" := Dir]> files).

(** The project with a manifest that declares nothing. *)
Definition bare_project : FileSystem :=
  <[js "package.json" := File (js "{}")]> project.


(** [npm] cannot be started: the child emits ['error']. *)
Definition spawn_enoent : JsError :=
  mkError (js "Error") (js "spawn npm ENOENT").

Definition no_npm : Env :=
  mkEnv no_fault (inr [ErrorEvent spawn_enoent]) (fun files => files).

(** A manifest that declares [zod] with an empty version. *)
Definition falsy_manifest : jsstring :=
  js "{" ++ QuoteJSONString (js "dependencies") ++ js ":{" ++
  QuoteJSONString (js "@modelcontextprotocol/sdk") ++ js ":" ++ QuoteJSONString (js "^1.0.0") ++ js "," ++
  QuoteJSONString (js "@google/generative-ai") ++ js ":" ++ QuoteJSONString (js "^0.21.0") ++ js "," ++
  QuoteJSONString (js "dotenv") ++ js ":" ++ QuoteJSONString (js "^16.4.5") ++ js "," ++
  QuoteJSONString (js "zod") ++ js ":" ++ QuoteJSONString [] ++ js "}}".

Definition falsy_version_project : FileSystem :=
  <[js "package.json" := File falsy_manifest]> Sample.project.

(** A manifest whose "dependencies" is a string. *)
Definition string_dependencies_project : FileSystem :=
  <[js "package.json" :=
      File (js "{" ++ QuoteJSONString (js "dependencies") ++ js ":"
            ++ QuoteJSONString (js "zod") ++ js "}")]> Sample.project.

(** A build that writes on both pipes and never closes. *)
Definition hanging_build : Env :=
  mkEnv Sample.no_fault
        (inr [DataEvent Stdout (js "> tsc"); DataEvent Stderr (js "warning")])
        (fun files => files).


(** The project with a file left at the path of the synthetic
    configuration. *)
Definition stale_config_project : FileSystem :=
  <[configPath := File (js "stale")]> Sample.project.

End Sample.

(* ===================================================================== *)
(** ** Vocabulary of the properties *)
(* ===================================================================== *)

(** Text without surrogates. *)
Definition plain (s : jsstring) : Prop := Forall (fun c => is_surrogate c = false) s.

(** [t] occurs in [s]. *)
Definition contains (s t : jsstring) : Prop := exists pre post, s = pre ++ t ++ post.

(** The outcome [p] of parsing [s] is not [PFuel], and a value comes with
    less input than [s]. *)
Definition consumes {A} (p : Parsed A) (s : jsstring) : Prop :=
  match p with
  | POk _ rest => (length rest < length s)%nat
  | PErr _ => True
  | PFuel => False
  end.

(** The state after the results [rs] have been pushed. *)
Definition push (rs : list TestResult) (st : State) : State :=
  mkState (fs st) (results st ++ rs) (console st).

(** The state with other files. *)
Definition with_files (files : FileSystem) (st : State) : State :=
  mkState files (results st) (console st).

(** The error of [fs.access(path)], if it throws. *)
Definition access_error (env : Env) (files : FileSystem) (path : jsstring) : option JsError :=
  match fault env OpAccess path with
  | Some e => Some e
  | None =>
      match files !! path with
      | Some _ => None
      | None => Some (ENOENT (js "access") path)
      end
  end.

Definition accessible (env : Env) (files : FileSystem) (path : jsstring) : bool :=
  match access_error env files path with
  | None => true
  | Some _ => false
  end.

(** The text [fs.readFile(path, 'utf-8')] returns, or the error it throws. *)
Definition read_file (env : Env) (files : FileSystem) (path : jsstring) : JsError + jsstring :=
  match fault env OpReadFile path with
  | Some e => inl e
  | None =>
      match files !! path with
      | Some (File text) => inr text
      | Some Dir => inl (EISDIR (js "read") path)
      | None => inl (ENOENT (js "open") path)
      end
  end.

(** The error of [fs.writeFile(path, _)], if it throws. *)
Definition write_error (env : Env) (files : FileSystem) (path : jsstring) : option JsError :=
  match fault env OpWriteFile path with
  | Some e => Some e
  | None =>
      match files !! path with
      | Some Dir => Some (EISDIR (js "open") path)
      | _ => None
      end
  end.

(** *** The Results each check pushes, as functions of the world *)

Definition present_result (file : jsstring) : TestResult :=
  mkResult (js "Project structure - " ++ file) true
           (check_mark ++ js " " ++ file ++ js " exists").
Definition missing_result (file : jsstring) : TestResult :=
  mkResult (js "Project structure - " ++ file) false
           (cross_mark ++ js " " ++ file ++ js " missing").

Definition structure_result (env : Env) (files : FileSystem) (file : jsstring) : TestResult :=
  if accessible env files file then present_result file else missing_result file.

Definition structure_results (env : Env) (files : FileSystem) : list TestResult :=
  map (structure_result env files) requiredFiles.

(** The value of [packageJson.dependencies] once the first
    [packageJson.dependencies[dep]] has been read, or the error thrown on
    the way there. *)
Definition manifest_dependencies (env : Env) (files : FileSystem) : JsError + JsValue :=
  match read_file env files (js "package.json") with
  | inl e => inl e
  | inr text =>
      match JSON_parse text with
      | inl e => inl e
      | inr packageJson =>
          match get_property (Some packageJson) (js "dependencies") with
          | inl e => inl e
          | inr dependencies =>
              match get_property dependencies (js "@modelcontextprotocol/sdk") with
              | inl e => inl e
              | inr _ => inr dependencies
              end
          end
      end
  end.

Definition property_or_undefined (value : JsValue) (key : jsstring) : JsValue :=
  match get_property value key with
  | inr v => v
  | inl _ => None
  end.

Definition dependency_result (dependencies : JsValue) (dep : jsstring) : TestResult :=
  if truthy (property_or_undefined dependencies dep)
  then mkResult (js "Dependencies - " ++ dep) true (check_mark ++ js " " ++ dep ++ js " found")
  else mkResult (js "Dependencies - " ++ dep) false (cross_mark ++ js " " ++ dep ++ js " missing").

Definition node_modules_result (env : Env) (files : FileSystem) : TestResult :=
  if accessible env files (js "node_modules")
  then mkResult (js "Dependencies - node_modules") true
                (check_mark ++ js " Dependencies installed")
  else mkResult (js "Dependencies - node_modules") false
                (cross_mark ++ js " Run npm install first").

Definition dependencies_failure (error : JsError) : TestResult :=
  mkResult (js "Dependencies check") false
           (cross_mark ++ js " Failed to check dependencies: " ++ error_toString error).

Definition dependencies_results (env : Env) (files : FileSystem) : list TestResult :=
  match manifest_dependencies env files with
  | inl e => [dependencies_failure e]
  | inr dependencies =>
      map (dependency_result dependencies) requiredDeps ++ [node_modules_result env files]
  end.

Definition build_failed_message (errorOutput : jsstring) : jsstring :=
  cross_mark ++ js " Build failed: " ++ errorOutput.

(** The Result of the build once the child has closed with [code]; [files]
    are the files it leaves. *)
Definition build_result (env : Env) (files : FileSystem) (code : option Z)
    (errorOutput : jsstring) : TestResult :=
  if decide (code = Some 0%Z) then
    if accessible env files (js "dist")
    then mkResult (js "Build process") true (check_mark ++ js " Build successful")
    else mkResult (js "Build process") false (cross_mark ++ js " Dist directory not created")
  else mkResult (js "Build process") false (build_failed_message errorOutput).

(** The chunks of one pipe, in order. *)
Fixpoint captured (from : Stream) (chunks : list (Stream * jsstring)) : jsstring :=
  match chunks with
  | [] => []
  | (Stdout, data) :: chunks' =>
      match from with Stdout => data ++ captured from chunks' | Stderr => captured from chunks' end
  | (Stderr, data) :: chunks' =>
      match from with Stderr => data ++ captured from chunks' | Stdout => captured from chunks' end
  end.

Definition data_events (chunks : list (Stream * jsstring)) : list ChildEvent :=
  map (fun '(from, data) => DataEvent from data) chunks.

(** How the child ends for the harness: it closes, with the text captured
    from its error pipe; it emits ['error'] first; or its events stop short
    of ['close']. *)
Inductive ChildEnd :=
| Closes (code : option Z) (errorOutput : jsstring)
| Errors (e : JsError)
| NeverCloses.

Fixpoint child_end (events : list ChildEvent) (errorOutput : jsstring) : ChildEnd :=
  match events with
  | [] => NeverCloses
  | DataEvent Stdout _ :: events' => child_end events' errorOutput
  | DataEvent Stderr data :: events' => child_end events' (errorOutput ++ data)
  | ErrorEvent e :: _ => Errors e
  | CloseEvent code :: _ => Closes code errorOutput
  end.

Definition write_result : TestResult :=
  mkResult (js "Configuration - Write") true (check_mark ++ js " Config file written").
Definition read_result : TestResult :=
  mkResult (js "Configuration - Read") true (check_mark ++ js " Config file read correctly").
Definition cleanup_result : TestResult :=
  mkResult (js "Configuration - Cleanup") true (check_mark ++ js " Test config cleaned up").
Definition configuration_failure (error : JsError) : TestResult :=
  mkResult (js "Configuration handling") false
           (cross_mark ++ js " Configuration test failed: " ++ error_toString error).

Definition configuration_results (env : Env) (files : FileSystem) : list TestResult :=
  match write_error env files configPath with
  | Some e => [configuration_failure e]
  | None =>
      match fault env OpReadFile configPath with
      | Some e => [write_result; configuration_failure e]
      | None =>
          match fault env OpUnlink configPath with
          | Some e => [write_result; read_result; configuration_failure e]
          | None => [write_result; read_result; cleanup_result]
          end
      end
  end.

(** The files the configuration check leaves. *)
Definition configuration_files (env : Env) (files : FileSystem) (config : Config) : FileSystem :=
  match write_error env files configPath with
  | Some _ => files
  | None =>
      match fault env OpReadFile configPath, fault env OpUnlink configPath with
      | None, None => delete configPath (<[configPath := File (JSON_stringify config)]> files)
      | _, _ => <[configPath := File (JSON_stringify config)]> files
      end
  end.

Definition element_result (sourceCode element : jsstring) : TestResult :=
  if includes sourceCode element
  then mkResult (js "Tool Schema - " ++ element) true
                (check_mark ++ js " " ++ element ++ js " found")
  else mkResult (js "Tool Schema - " ++ element) false
                (cross_mark ++ js " " ++ element ++ js " missing").

Definition mime_result (sourceCode : jsstring) : TestResult :=
  mkResult (js "MIME type handling") (hasMimeTypeLogic sourceCode)
           (if hasMimeTypeLogic sourceCode
            then check_mark ++ js " MIME type logic found"
            else cross_mark ++ js " MIME type logic missing").

Definition schema_failure (error : JsError) : TestResult :=
  mkResult (js "Tool Schema validation") false
           (cross_mark ++ js " Schema test failed: " ++ error_toString error).

Definition schema_results (env : Env) (files : FileSystem) : list TestResult :=
  match read_file env files (js "src/index.ts") with
  | inl e => [schema_failure e]
  | inr sourceCode =>
      map (element_result sourceCode) requiredElements ++ [mime_result sourceCode]
  end.

(** *** The Reporter and the orchestrator *)

(** A computation that prints and does nothing else. *)
Definition prints_only (m : M unit) : Prop :=
  forall st, exists lines,
    m st = (Normal tt, mkState (fs st) (results st) (console st ++ lines)).

(** Every Result of the log passed. *)
Definition all_passed (log : list TestResult) : Prop :=
  Forall (fun r => passed r = true) log.

#[global] Instance all_passed_dec (log : list TestResult) : Decision (all_passed log) :=
  Forall_dec (fun r => passed r = true) log.

(** The state in which the checks start: the banner has been printed. *)
Definition started (st : State) : State :=
  mkState (fs st) (results st)
          (console st ++ [[0xD83D; 0xDE80] ++
             js " Starting nano-banana MCP server integration tests..." ++ [0x0A]]).

(** The log when the build check does not complete, and the files and the
    log when the child closed with [code] and the five checks completed. *)
Definition early_log (env : Env) (files : FileSystem) : list TestResult :=
  structure_results env files ++ dependencies_results env files.

Definition final_files (env : Env) (files : FileSystem) : FileSystem :=
  configuration_files env (build_effect env files)
                      (mkConfig (js "test-api-key-for-integration-testing")).

Definition complete_log (env : Env) (files : FileSystem) (code : option Z)
    (errorOutput : jsstring) : list TestResult :=
  structure_results env files ++ dependencies_results env files ++
  [build_result env (build_effect env files) code errorOutput] ++
  configuration_results env (build_effect env files) ++
  schema_results env (final_files env files).

(** *** The claims that fail, as propositions *)

(** The claim that a fault collapses the check, at one state: the check
    pushes the aggregate failing Result and nothing else. *)
Definition collapses_to_aggregate (env : Env) (st : State) : Prop :=
  exists e,
    results (testConfigurationHandling env st).2 = results st ++ [configuration_failure e].

(** The claim that removing [f] changes one Result only, at one project:
    the two logs differ in the Result of [f] and nowhere else. *)
Definition removal_isolated (env : Env) (files : FileSystem) (f : jsstring) : Prop :=
  exists before after,
    results (run env files).2 = before ++ present_result f :: after /\
    results (run env (delete f files)).2 = before ++ missing_result f :: after.

(** A Result named "Configuration - Cleanup" passed. *)
Definition cleanup_passed (r : TestResult) : Prop :=
  name r = js "Configuration - Cleanup" -> passed r = true.

(** *** What the Reporter prints *)

(** The line the Reporter prints for a Result, and its summary line. *)
Definition report_line (result : TestResult) : jsstring :=
  (if passed result then check_mark else cross_mark) ++ js " " ++ message result.

Definition summary_line (log : list TestResult) : jsstring :=
  [0xD83D; 0xDCCA] ++ js " Results: "
  ++ decimal (N.of_nat (length (filter (fun r => passed r = true) log)))
  ++ js "/" ++ decimal (N.of_nat (length log)) ++ js " tests passed".

(** Everything the Reporter prints for a log. *)
Definition report (log : list TestResult) : list jsstring :=
  [[0x0A; 0xD83D; 0xDCCB] ++ js " Integration Test Results:"; rule]
  ++ map report_line log
  ++ [rule; summary_line log]
  ++ (if decide (all_passed log)
      then [[0xD83C; 0xDF89] ++
              js " All integration tests passed! The nano-banana MCP server is ready to use.";
            [0x0A; 0xD83D; 0xDCD6] ++ js " Next steps:";
            js "1. Get a Gemini API key from Google AI Studio";
            js "2. Configure your MCP client (Claude Desktop, etc.)";
            js "3. Use the configure_gemini_token tool to set up your API key";
            js "4. Start generating and editing images with nano-banana!"]
      else [[0x26A0; 0xFE0F] ++
              js "  Some tests failed. Please fix the issues before using the server."]).

Definition banner : jsstring :=
  [0xD83D; 0xDE80] ++ js " Starting nano-banana MCP server integration tests..." ++ [0x0A].

(* ===================================================================== *)
(** ** Facts about strings *)
(* ===================================================================== *)

Ltac Zify.zify_post_hook ::= Z.to_euclidean_division_equations.

Lemma starts_with_spec (p s : jsstring) :
  starts_with p s = true <-> exists post, s = p ++ post.
Proof.
  revert s; induction p as [|a p IH]; intros s; simpl.
  - split; [intros _; exists s; reflexivity | reflexivity].
  - destruct s as [|b s].
    + split; [discriminate | intros [post H]; discriminate].
    + rewrite andb_true_iff, N.eqb_eq, IH. split.
      * intros [-> [post ->]]. exists post. reflexivity.
      * intros [post H]. injection H as -> ->. split; [reflexivity | exists post; reflexivity].
Qed.

(** [includes] decides the substring relation. *)
Lemma includes_spec (s t : jsstring) :
  includes s t = true <-> exists pre post, s = pre ++ t ++ post.
Proof.
  induction s as [|c s IH].
  - simpl. rewrite orb_false_r, starts_with_spec. split.
    + intros [post H]. exists [], post. exact H.
    + intros [pre [post H]]. destruct pre; [exists post; exact H | discriminate].
  - cbn [includes]. rewrite orb_true_iff, starts_with_spec, IH. split.
    + intros [[post H] | [pre [post H]]].
      * exists [], post. exact H.
      * exists (c :: pre), post. rewrite H. reflexivity.
    + intros [pre [post H]]. destruct pre as [|c' pre].
      * left. exists post. exact H.
      * right. injection H as _ H. exists pre, post. exact H.
Qed.

Lemma includes_app (pre t post : jsstring) : includes (pre ++ t ++ post) t = true.
Proof. apply includes_spec. exists pre, post. reflexivity. Qed.

(* ===================================================================== *)
(** ** Facts about JSON text *)
(* ===================================================================== *)

Lemma hex_value_digit (d : N) : d < 16 -> hex_value (hex_digit d) = Some d.
Proof.
  intros H.
  assert (d = 0 \/ d = 1 \/ d = 2 \/ d = 3 \/ d = 4 \/ d = 5 \/ d = 6 \/ d = 7 \/
          d = 8 \/ d = 9 \/ d = 10 \/ d = 11 \/ d = 12 \/ d = 13 \/ d = 14 \/ d = 15)
    as Hd by lia.
  repeat (destruct Hd as [-> | Hd]; [reflexivity |]). subst d. reflexivity.
Qed.

Lemma hex4_UnicodeEscape (c : N) :
  c < 65536 ->
  exists h1 h2 h3 h4,
    UnicodeEscape c = [ch "\"; ch "u"; h1; h2; h3; h4] /\ hex4 h1 h2 h3 h4 = Some c.
Proof.
  intros H. unfold UnicodeEscape. do 4 eexists. split; [reflexivity |].
  unfold hex4. rewrite !hex_value_digit by (apply N.mod_lt; discriminate).
  f_equal. lia.
Qed.

Lemma parse_chars_plain (c : N) (rest : jsstring) :
  c <> 0x22 -> c <> 0x5C -> 0x20 <= c ->
  parse_chars (c :: rest) = pmap (cons c) (parse_chars rest).
Proof.
  intros H1 H2 H3. cbn [parse_chars].
  destruct (N.eqb_spec c 0x22) as [|_]; [contradiction|].
  change (ch "\") with 0x5C.
  destruct (N.eqb_spec c 0x5C) as [|_]; [contradiction|].
  destruct (N.ltb_spec c 0x20) as [|_]; [lia|]. reflexivity.
Qed.

Lemma surrogate_bounds (c : N) : is_surrogate c = true -> 0xD800 <= c <= 0xDFFF.
Proof. unfold is_surrogate. rewrite andb_true_iff, !N.leb_le. tauto. Qed.

Lemma leading_is_surrogate (c : N) : is_leading_surrogate c = true -> is_surrogate c = true.
Proof.
  unfold is_leading_surrogate, is_surrogate. rewrite !andb_true_iff, !N.leb_le. lia.
Qed.

Lemma trailing_is_surrogate (c : N) : is_trailing_surrogate c = true -> is_surrogate c = true.
Proof.
  unfold is_trailing_surrogate, is_surrogate. rewrite !andb_true_iff, !N.leb_le. lia.
Qed.

Lemma parse_chars_surrogate (c : N) (rest : jsstring) :
  is_surrogate c = true ->
  parse_chars (c :: rest) = pmap (cons c) (parse_chars rest).
Proof.
  intros H%surrogate_bounds. apply parse_chars_plain; lia.
Qed.

Lemma parse_chars_UnicodeEscape (c : N) (rest : jsstring) :
  c < 65536 ->
  parse_chars (UnicodeEscape c ++ rest) = pmap (cons c) (parse_chars rest).
Proof.
  intros H. destruct (hex4_UnicodeEscape c H) as (h1 & h2 & h3 & h4 & -> & Hhex).
  cbn [app parse_chars]. change (ch "\" =? 34) with false. rewrite N.eqb_refl.
  change (simple_escape (ch "u")) with (@None N). rewrite N.eqb_refl, Hhex.
  reflexivity.
Qed.

(** A quoted code unit reads back as that code unit. *)
Lemma parse_chars_quote_unit (c : N) (rest : jsstring) :
  parse_chars (quote_unit c ++ rest) = pmap (cons c) (parse_chars rest).
Proof.
  unfold quote_unit.
  repeat match goal with
  | |- context [if ?x =? ?y then _ else _] =>
      destruct (N.eqb_spec x y) as [->|?]; [reflexivity|]
  end.
  destruct (N.ltb_spec c 32) as [Hlt|Hge]; cbn [orb].
  - apply parse_chars_UnicodeEscape. lia.
  - destruct (is_surrogate c) eqn:Hs.
    + apply parse_chars_UnicodeEscape. apply surrogate_bounds in Hs. lia.
    + apply parse_chars_plain; assumption.
Qed.

(** The body of a quoted string, up to its closing quote, reads back as the
    string. *)
Lemma parse_chars_quote_units (s rest : jsstring) :
  parse_chars (quote_units s ++ 0x22 :: rest) = POk s rest.
Proof.
  remember (length s) as n eqn:Hn. revert s Hn.
  induction n as [n IH] using lt_wf_ind. intros s Hn.
  destruct s as [|c s]; [reflexivity|].
  cbn [quote_units].
  assert (Hone : parse_chars ((quote_unit c ++ quote_units s) ++ 34 :: rest)
                 = POk (c :: s) rest).
  { rewrite <- app_assoc, parse_chars_quote_unit.
    rewrite (IH (length s)) by (simpl in Hn; first [lia | reflexivity]).
    reflexivity. }
  destruct (is_leading_surrogate c) eqn:Hc; [|exact Hone].
  destruct s as [|d s].
  - rewrite <- (app_nil_r (quote_unit c)). exact Hone.
  - destruct (is_trailing_surrogate d) eqn:Hd; [|exact Hone].
    cbn [app].
    rewrite parse_chars_surrogate by (apply leading_is_surrogate, Hc).
    rewrite parse_chars_surrogate by (apply trailing_is_surrogate, Hd).
    rewrite (IH (length s)) by (simpl in Hn; first [lia | reflexivity]).
    reflexivity.
Qed.

Lemma not_surrogate_not_leading (c : N) : is_surrogate c = false -> is_leading_surrogate c = false.
Proof.
  intros H. destruct (is_leading_surrogate c) eqn:E; [|reflexivity].
  apply leading_is_surrogate in E. congruence.
Qed.

Lemma not_surrogate_not_trailing (c : N) : is_surrogate c = false -> is_trailing_surrogate c = false.
Proof.
  intros H. destruct (is_trailing_surrogate c) eqn:E; [|reflexivity].
  apply trailing_is_surrogate in E. congruence.
Qed.

Lemma utf8_roundtrip_plain_app (a b : jsstring) :
  plain a -> utf8_roundtrip (a ++ b) = a ++ utf8_roundtrip b.
Proof.
  induction 1 as [|c a Hc _ IH]; [reflexivity|].
  cbn [app utf8_roundtrip].
  rewrite (not_surrogate_not_leading c Hc), (not_surrogate_not_trailing c Hc), IH.
  reflexivity.
Qed.

Lemma hex_digit_plain (d : N) : d < 16 -> is_surrogate (hex_digit d) = false.
Proof.
  intros H. unfold hex_digit, is_surrogate. change (ch "0") with 48. change (ch "a") with 97.
  destruct (N.ltb_spec d 10); apply andb_false_iff; left; apply N.leb_gt; lia.
Qed.

Lemma quote_unit_plain (c : N) : plain (quote_unit c).
Proof.
  unfold quote_unit.
  repeat match goal with
  | |- context [if ?x =? ?y then _ else _] =>
      destruct (N.eqb_spec x y) as [->|?]; [repeat constructor|]
  end.
  assert (Hesc : plain (UnicodeEscape c)).
  { unfold UnicodeEscape. repeat constructor; apply hex_digit_plain, N.mod_lt; discriminate. }
  destruct (c <? 32); cbn [orb]; [exact Hesc|].
  destruct (is_surrogate c) eqn:Hs; [exact Hesc|].
  constructor; [exact Hs | constructor].
Qed.

(** Quoted text has no unpaired surrogate: a file keeps it as it is. *)
Lemma utf8_roundtrip_quote_units (s rest : jsstring) :
  utf8_roundtrip (quote_units s ++ rest) = quote_units s ++ utf8_roundtrip rest.
Proof.
  remember (length s) as n eqn:Hn. revert s Hn.
  induction n as [n IH] using lt_wf_ind. intros s Hn.
  destruct s as [|c s]; [reflexivity|].
  cbn [quote_units].
  assert (Hone : utf8_roundtrip ((quote_unit c ++ quote_units s) ++ rest)
                 = (quote_unit c ++ quote_units s) ++ utf8_roundtrip rest).
  { rewrite <- !app_assoc, utf8_roundtrip_plain_app by apply quote_unit_plain.
    rewrite (IH (length s)) by (simpl in Hn; first [lia | reflexivity]).
    reflexivity. }
  destruct (is_leading_surrogate c) eqn:Hc; [|exact Hone].
  destruct s as [|d s].
  - rewrite <- (app_nil_r (quote_unit c)). exact Hone.
  - destruct (is_trailing_surrogate d) eqn:Hd; [|exact Hone].
    cbn [app utf8_roundtrip]. rewrite Hc, Hd.
    rewrite (IH (length s)) by (simpl in Hn; first [lia | reflexivity]).
    reflexivity.
Qed.

(** The text [JSON.stringify] writes: fixed text around the quoted key. *)
Lemma JSON_stringify_shape (config : Config) :
  JSON_stringify config =
  (js "{" ++ [0x0A] ++ js "  " ++ QuoteJSONString (js "geminiApiKey") ++ js ": " ++ [0x22])
    ++ quote_units (geminiApiKey config) ++ [0x22; 0x0A; ch "}"].
Proof.
  unfold JSON_stringify, QuoteJSONString.
  change (quote_units (js "geminiApiKey")) with (js "geminiApiKey").
  cbn [js app]. rewrite <- !app_assoc. reflexivity.
Qed.

Lemma utf8_roundtrip_JSON_stringify (config : Config) :
  utf8_roundtrip (JSON_stringify config) = JSON_stringify config.
Proof.
  rewrite JSON_stringify_shape.
  rewrite utf8_roundtrip_plain_app by (repeat constructor).
  rewrite utf8_roundtrip_quote_units. reflexivity.
Qed.

(** Replace the character constants of the goal by their code units. *)
Ltac code_units :=
  cbn [js app];
  repeat match goal with
  | |- context [ch ?a] =>
      let v := eval vm_compute in (ch a) in change (ch a) with v
  end.

Lemma parse_value_stringify (n : nat) (config : Config) :
  parse_value (S (S (S n))) (JSON_stringify config)
  = POk (JObject [(js "geminiApiKey", JString (geminiApiKey config))]) [].
Proof.
  rewrite JSON_stringify_shape. unfold QuoteJSONString.
  change (quote_units (js "geminiApiKey")) with (js "geminiApiKey").
  rewrite <- !app_assoc. code_units.
  simpl.
  rewrite parse_chars_quote_units. reflexivity.
Qed.

(** [JSON.parse] undoes [JSON.stringify] on a configuration object. *)
Lemma JSON_parse_stringify (config : Config) :
  JSON_parse (JSON_stringify config)
  = inr (JObject [(js "geminiApiKey", JString (geminiApiKey config))]).
Proof.
  unfold JSON_parse.
  assert (Hfuel : exists n, parse_fuel (JSON_stringify config) = S (S (S n))).
  { unfold parse_fuel. rewrite JSON_stringify_shape. cbn [app js length].
    eexists. cbn [Nat.mul Nat.add]. rewrite Nat.add_succ_r. reflexivity. }
  destruct Hfuel as [n ->].
  rewrite parse_value_stringify. reflexivity.
Qed.

(** *** The recursion budget of [JSON_parse] is never exhausted *)

Lemma skip_ws_length (s : jsstring) : (length (skip_ws s) <= length s)%nat.
Proof.
  induction s as [|c s IH]; [reflexivity|].
  cbn [skip_ws]. destruct (is_ws c); cbn [length]; lia.
Qed.

Lemma consumes_pmap {A B} (f : A -> B) (p : Parsed A) (s : jsstring) :
  consumes p s -> consumes (pmap f p) s.
Proof. destruct p; exact id. Qed.

Lemma consumes_weaken {A} (p : Parsed A) (s s' : jsstring) :
  (length s <= length s')%nat -> consumes p s -> consumes p s'.
Proof. destruct p; cbn; [lia | trivial | trivial]. Qed.

Lemma parse_chars_consumes (s : jsstring) :
  match parse_chars s with
  | POk _ rest => (length rest < length s)%nat
  | PErr _ => True
  | PFuel => False
  end.
Proof.
  remember (length s) as n eqn:Hn. revert s Hn.
  induction n as [n IH] using lt_wf_ind. intros s ->.
  assert (Hrec : forall (u : N) (s' : jsstring), (length s' < length s)%nat ->
            consumes (pmap (cons u) (parse_chars s')) s).
  { intros u s' Hlt. apply consumes_pmap.
    specialize (IH (length s') Hlt s' eq_refl).
    destruct (parse_chars s'); cbn in *; [lia | trivial | trivial]. }
  destruct s as [|c rest]; [exact I|].
  cbn [parse_chars].
  destruct (c =? 34); [cbn [length]; lia|].
  destruct (c =? ch "\").
  - destruct rest as [|e rest1]; [exact I|].
    destruct (simple_escape e).
    + apply (Hrec n rest1). cbn [length]. lia.
    + destruct (e =? ch "u"); [|exact I].
      destruct rest1 as [|h1 [|h2 [|h3 [|h4 rest2]]]]; try exact I.
      destruct (hex4 h1 h2 h3 h4); [|exact I].
      apply (Hrec n rest2). cbn [length]. lia.
  - destruct (c <? 32); [exact I|].
    apply (Hrec c rest). cbn [length]. lia.
Qed.

Lemma digits_run_length (acc : N) (count : nat) (s : jsstring) :
  let '(_, count', rest) := digits_run acc count s in
  (count <= count')%nat /\ (length rest + count' = length s + count)%nat.
Proof.
  revert acc count. induction s as [|c s IH]; intros acc count; [split; reflexivity|].
  cbn [digits_run]. destruct (is_digit c); [|split; reflexivity].
  specialize (IH (acc * 10 + (c - ch "0")) (S count)).
  destruct (digits_run _ _ s) as [[? count'] rest]. cbn [length]. lia.
Qed.

Lemma parse_exponent_length (s : jsstring) :
  match parse_exponent s with
  | POk _ rest => (length rest <= length s)%nat
  | PErr _ => True
  | PFuel => False
  end.
Proof.
  unfold parse_exponent. destruct s as [|c rest]; [reflexivity|].
  destruct ((c =? ch "e") || (c =? ch "E")); [|reflexivity].
  assert (Hbody : forall (sign : bool) (body : jsstring),
            (length body <= length rest)%nat ->
            match (match digits_run 0 0 body with
                   | (_, O, r) => PErr r
                   | (e, S _, r) => POk (if sign then - Z.of_N e else Z.of_N e)%Z r
                   end) with
            | POk _ rest' => (length rest' <= length (c :: rest))%nat
            | PErr _ => True
            | PFuel => False
            end).
  { intros sign body Hle. pose proof (digits_run_length 0 0 body) as Hrun.
    destruct (digits_run 0 0 body) as [[e [|k]] r]; [exact I|]. cbn [length]. lia. }
  destruct rest as [|d rest'].
  - apply (Hbody false []). reflexivity.
  - destruct (d =? ch "-"); [apply (Hbody true rest'); cbn [length]; lia|].
    destruct (d =? ch "+"); [apply (Hbody false rest'); cbn [length]; lia|].
    apply (Hbody false (d :: rest')). reflexivity.
Qed.

Lemma parse_number_consumes (s : jsstring) : consumes (parse_number s) s.
Proof.
  unfold parse_number.
  set (split := match s with
                | c :: rest => if c =? ch "-" then (true, rest) else (false, s)
                | [] => (false, s)
                end).
  assert (Hs1 : (length split.2 <= length s)%nat).
  { subst split. destruct s as [|c rest]; [reflexivity|].
    destruct (c =? ch "-"); cbn [snd length]; lia. }
  destruct split as [neg s1]. cbn [snd] in Hs1.
  apply (consumes_weaken _ s1 s Hs1). clear Hs1 s.
  set (int_part := match s1 with
                   | c :: rest =>
                       if c =? ch "0" then POk 0 rest
                       else if is_digit c then
                              let '(n, _, r) := digits_run 0 0 s1 in POk n r
                            else PErr s1
                   | [] => PErr []
                   end).
  assert (Hint : consumes int_part s1).
  { subst int_part. destruct s1 as [|c rest]; [exact I|].
    destruct (c =? ch "0"); [cbn; lia|].
    destruct (is_digit c) eqn:Hd; [|exact I].
    cbn [digits_run]. rewrite Hd.
    pose proof (digits_run_length (0 * 10 + (c - ch "0")) 1 rest) as Hrun.
    destruct (digits_run (0 * 10 + (c - ch "0")) 1 rest) as [[n k] r].
    cbn [consumes length]. lia. }
  destruct int_part as [i s2| |]; [|exact I|contradiction].
  cbn [consumes] in Hint.
  set (frac_part := match s2 with
                    | c :: rest =>
                        if c =? ch "." then
                          match digits_run i 0 rest with
                          | (_, O, r) => PErr r
                          | (m, S k, r) => POk (m, - Z.of_nat (S k))%Z r
                          end
                        else POk (i, 0%Z) s2
                    | [] => POk (i, 0%Z) []
                    end).
  assert (Hfrac : match frac_part with
                  | POk _ rest => (length rest <= length s2)%nat
                  | PErr _ => True
                  | PFuel => False
                  end).
  { subst frac_part. destruct s2 as [|c rest]; [reflexivity|].
    destruct (c =? ch "."); [|reflexivity].
    pose proof (digits_run_length i 0 rest) as Hrun.
    destruct (digits_run i 0 rest) as [[m [|k]] r]; [exact I|]. cbn [length]. lia. }
  destruct frac_part as [[m shift] s3| |]; [|exact I|contradiction].
  pose proof (parse_exponent_length s3) as Hexp.
  destruct (parse_exponent s3) as [e s4| |]; [|exact I|contradiction].
  cbn [consumes]. lia.
Qed.

Lemma parse_keyword_consumes (kw : jsstring) (v : JSON) (s : jsstring) :
  match parse_keyword kw v s with
  | POk _ rest => (length rest + length kw = length s)%nat
  | PErr _ => True
  | PFuel => False
  end.
Proof.
  revert s. induction kw as [|k kw IH]; intros s; [cbn; lia|].
  destruct s as [|c rest]; [exact I|]. cbn [parse_keyword].
  destruct (k =? c); [|exact I].
  specialize (IH rest). destruct (parse_keyword kw v rest); cbn [length] in *; [lia|exact I|exact IH].
Qed.

Lemma skip_ws_cons_length (s : jsstring) (c : N) (rest : jsstring) :
  skip_ws s = c :: rest -> (S (length rest) <= length s)%nat.
Proof.
  intros H. pose proof (skip_ws_length s) as Hle. rewrite H in Hle. exact Hle.
Qed.

Lemma parse_fuel_enough (fuel : nat) :
  (forall s, (2 * length s + 1 <= fuel)%nat -> consumes (parse_value fuel s) s) /\
  (forall acc s, (2 * length s + 2 <= fuel)%nat -> consumes (parse_elements fuel acc s) s) /\
  (forall acc s, (2 * length s + 2 <= fuel)%nat -> consumes (parse_members fuel acc s) s).
Proof.
  induction fuel as [|fuel (IHv & IHe & IHm)]; [repeat split; intros; lia|].
  split; [|split].
  - intros s Hfuel. cbn [parse_value].
    destruct (skip_ws s) as [|c rest] eqn:Hs; [exact I|].
    apply skip_ws_cons_length in Hs.
    destruct (c =? 34).
    { apply consumes_pmap. pose proof (parse_chars_consumes rest) as Hc.
      destruct (parse_chars rest); cbn in *; [lia | trivial | trivial]. }
    destruct (c =? ch "[").
    { destruct (skip_ws rest) as [|d rest'] eqn:Hr; [exact I|].
      apply skip_ws_cons_length in Hr.
      destruct (d =? ch "]"); [cbn; lia|].
      apply (consumes_weaken _ rest s); [lia|]. apply IHe. lia. }
    destruct (c =? ch "{").
    { destruct (skip_ws rest) as [|d rest'] eqn:Hr; [exact I|].
      apply skip_ws_cons_length in Hr.
      destruct (d =? ch "}"); [cbn; lia|].
      apply (consumes_weaken _ rest s); [lia|]. apply IHm. lia. }
    assert (Hkw : forall kw v, (1 <= length kw)%nat ->
              consumes (parse_keyword kw v (c :: rest)) s).
    { intros kw v Hlen. pose proof (parse_keyword_consumes kw v (c :: rest)) as Hk.
      destruct (parse_keyword kw v (c :: rest)); cbn [length consumes] in *;
        [lia | trivial | trivial]. }
    destruct (c =? ch "t"); [apply Hkw; cbn; lia|].
    destruct (c =? ch "f"); [apply Hkw; cbn; lia|].
    destruct (c =? ch "n"); [apply Hkw; cbn; lia|].
    destruct ((c =? ch "-") || is_digit c); [|exact I].
    apply (consumes_weaken _ (c :: rest) s); [cbn [length]; lia|].
    apply parse_number_consumes.
  - intros acc s Hfuel. cbn [parse_elements].
    assert (Hv : consumes (parse_value fuel s) s) by (apply IHv; lia).
    destruct (parse_value fuel s) as [v r| |]; [|exact I|contradiction].
    cbn [consumes] in Hv.
    destruct (skip_ws r) as [|d r'] eqn:Hr; [exact I|].
    apply skip_ws_cons_length in Hr.
    destruct (d =? ch ",").
    { apply (consumes_weaken _ r' s); [lia|]. apply IHe. lia. }
    destruct (d =? ch "]"); [cbn; lia | exact I].
  - intros acc s Hfuel. cbn [parse_members].
    destruct (skip_ws s) as [|q r0] eqn:Hs; [exact I|].
    apply skip_ws_cons_length in Hs.
    destruct (q =? 34); [|exact I].
    pose proof (parse_chars_consumes r0) as Hkey.
    destruct (parse_chars r0) as [key r1| |]; [|exact I|contradiction].
    destruct (skip_ws r1) as [|colon r2] eqn:Hr1; [exact I|].
    apply skip_ws_cons_length in Hr1.
    destruct (colon =? ch ":"); [|exact I].
    assert (Hv : consumes (parse_value fuel r2) r2) by (apply IHv; lia).
    destruct (parse_value fuel r2) as [v r3| |]; [|exact I|contradiction].
    cbn [consumes] in Hv.
    destruct (skip_ws r3) as [|d r4] eqn:Hr3; [exact I|].
    apply skip_ws_cons_length in Hr3.
    destruct (d =? ch ",").
    { apply (consumes_weaken _ r4 s); [lia|]. apply IHm. lia. }
    destruct (d =? ch "}"); [cbn; lia | exact I].
Qed.

(** [JSON_parse] never runs out of budget: it returns a value or reports
    the place where the text stops being JSON. *)
Lemma parse_value_fuel (text : jsstring) : parse_value (parse_fuel text) text <> PFuel.
Proof.
  pose proof (proj1 (parse_fuel_enough (parse_fuel text)) text) as H.
  unfold parse_fuel in *. specialize (H ltac:(lia)).
  intros E. rewrite E in H. exact H.
Qed.

(* ===================================================================== *)
(** ** The monad and the file operations *)
(* ===================================================================== *)

Lemma push_push (a b : list TestResult) (st : State) :
  push b (push a st) = push (a ++ b) st.
Proof. unfold push. cbn. rewrite app_assoc. reflexivity. Qed.

Lemma push_nil (st : State) : push [] st = st.
Proof. destruct st. unfold push. cbn. rewrite app_nil_r. reflexivity. Qed.

Lemma addResult_eq (n : jsstring) (p : bool) (m : jsstring) (st : State) :
  addResult n p m st = (Normal tt, push [mkResult n p m] st).
Proof. reflexivity. Qed.

Lemma fs_access_eq (env : Env) (path : jsstring) (st : State) :
  fs_access env path st =
  (match access_error env (fs st) path with
   | None => Normal tt
   | Some e => Throw e
   end, st).
Proof.
  unfold fs_access, access_error.
  destruct (fault env OpAccess path); [reflexivity|].
  destruct (fs st !! path); reflexivity.
Qed.

Lemma fs_readFile_eq (env : Env) (path : jsstring) (st : State) :
  fs_readFile env path st = lift (read_file env (fs st) path) st.
Proof.
  unfold fs_readFile, read_file.
  destruct (fault env OpReadFile path); [reflexivity|].
  destruct (fs st !! path) as [[text|]|]; reflexivity.
Qed.

Lemma fs_writeFile_eq (env : Env) (path data : jsstring) (st : State) :
  fs_writeFile env path data st =
  match write_error env (fs st) path with
  | Some e => (Throw e, st)
  | None => (Normal tt, with_files (<[path := File (utf8_roundtrip data)]> (fs st)) st)
  end.
Proof.
  unfold fs_writeFile, write_error.
  destruct (fault env OpWriteFile path); [reflexivity|].
  destruct (fs st !! path) as [[text|]|]; reflexivity.
Qed.

(** try { await fs.access(p); addResult(.., true, ..) } catch { addResult(.., false, ..) } *)
Lemma probe_eq (env : Env) (path n1 m1 n2 m2 : jsstring) (st : State) :
  try_catch (fs_access env path >> addResult n1 true m1) (fun _ => addResult n2 false m2) st
  = (Normal tt,
     push [if accessible env (fs st) path then mkResult n1 true m1 else mkResult n2 false m2] st).
Proof.
  unfold try_catch, bind, accessible. rewrite fs_access_eq.
  destruct (access_error env (fs st) path); reflexivity.
Qed.

(** A loop whose body pushes one Result and leaves the files alone. *)
Lemma for_of_push {A} (xs : list A) (body : A -> M unit)
    (result : FileSystem -> A -> TestResult) (st : State) :
  (forall x st', body x st' = (Normal tt, push [result (fs st') x] st')) ->
  for_of xs body st = (Normal tt, push (map (result (fs st)) xs) st).
Proof.
  intros Hbody. revert st. induction xs as [|x xs IH]; intros st.
  - cbn. rewrite push_nil. reflexivity.
  - cbn [for_of map]. unfold bind. rewrite Hbody, IH, push_push. reflexivity.
Qed.

(* ===================================================================== *)
(** ** What each check does *)
(* ===================================================================== *)

Lemma testProjectStructure_eq (env : Env) (st : State) :
  testProjectStructure env st = (Normal tt, push (structure_results env (fs st)) st).
Proof.
  unfold testProjectStructure, structure_results.
  apply (for_of_push requiredFiles _ (structure_result env)).
  intros file st'.
  rewrite probe_eq. reflexivity.
Qed.

(** Whether reading a property throws depends on the value only. *)
Lemma get_property_total (value : JsValue) (key key' : jsstring) (v : JsValue) :
  get_property value key = inr v ->
  get_property value key' = inr (property_or_undefined value key').
Proof.
  unfold property_or_undefined.
  destruct value as [[]|]; cbn; intros H; try discriminate; reflexivity.
Qed.

Lemma testDependencies_eq (env : Env) (st : State) :
  testDependencies env st = (Normal tt, push (dependencies_results env (fs st)) st).
Proof.
  unfold testDependencies, dependencies_results, manifest_dependencies.
  unfold try_catch at 1. unfold bind at 1. rewrite fs_readFile_eq.
  destruct (read_file env (fs st) (js "package.json")) as [e|text]; [reflexivity|].
  cbn [lift ret]. unfold bind at 1.
  destruct (JSON_parse text) as [e|packageJson]; [reflexivity|].
  cbn [lift ret].
  destruct (get_property (Some packageJson) (js "dependencies")) as [e|dependencies] eqn:Hdeps.
  { cbn [requiredDeps for_of]. unfold bind, lift, throw. reflexivity. }
  destruct (get_property dependencies (js "@modelcontextprotocol/sdk")) as [e|v] eqn:Hfirst.
  { unfold requiredDeps. cbn [for_of]. unfold bind at 1 2 3. cbn [lift ret].
    rewrite Hfirst. reflexivity. }
  unfold bind at 1.
  rewrite (for_of_push requiredDeps _ (fun _ => dependency_result dependencies)).
  - rewrite probe_eq, push_push. reflexivity.
  - intros dep st'. unfold bind, lift, ret, dependency_result.
    rewrite (get_property_total dependencies _ dep v Hfirst).
    destruct (truthy (property_or_undefined dependencies dep)); reflexivity.
Qed.

Lemma on_close_eq (env : Env) (code : option Z) (errorOutput : jsstring) (st : State) :
  on_close env code errorOutput st
  = (Normal tt, push [build_result env (fs st) code errorOutput] st).
Proof.
  unfold on_close, build_result. destruct (decide (code = Some 0%Z)).
  - rewrite probe_eq. reflexivity.
  - reflexivity.
Qed.

(** The listeners of ['data'] only accumulate. *)
Lemma dispatch_data (env : Env) (chunks : list (Stream * jsstring)) (events : list ChildEvent)
    (output errorOutput : jsstring) (st : State) :
  dispatch env (data_events chunks ++ events) output errorOutput st
  = dispatch env events (output ++ captured Stdout chunks)
             (errorOutput ++ captured Stderr chunks) st.
Proof.
  revert output errorOutput.
  induction chunks as [|[[] data] chunks IH]; intros output errorOutput; cbn.
  - rewrite !app_nil_r. reflexivity.
  - rewrite IH, <- app_assoc. reflexivity.
  - rewrite IH, <- app_assoc. reflexivity.
Qed.

Lemma dispatch_eq (env : Env) (events : list ChildEvent) (output errorOutput : jsstring)
    (st : State) :
  dispatch env events output errorOutput st =
  match child_end events errorOutput with
  | Closes code err =>
      (Normal tt,
       push [build_result env (build_effect env (fs st)) code err]
            (with_files (build_effect env (fs st)) st))
  | Errors e => (Uncaught e, st)
  | NeverCloses => (Pending, st)
  end.
Proof.
  revert output errorOutput.
  induction events as [|[[] data|e|code] events IH]; intros output errorOutput; cbn;
    try reflexivity; try apply IH.
  rewrite on_close_eq. reflexivity.
Qed.

Lemma testBuildProcess_eq (env : Env) (st : State) :
  testBuildProcess env st =
  match spawn_build env with
  | inl e => (Throw e, st)
  | inr events =>
      match child_end events [] with
      | Closes code err =>
          (Normal tt,
           push [build_result env (build_effect env (fs st)) code err]
                (with_files (build_effect env (fs st)) st))
      | Errors e => (Uncaught e, st)
      | NeverCloses => (Pending, st)
      end
  end.
Proof.
  unfold testBuildProcess, bind. destruct (spawn_build env) as [e|events]; [reflexivity|].
  cbn [lift ret]. apply dispatch_eq.
Qed.

Lemma own_property_single (key : jsstring) (v : JSON) :
  own_property [(key, v)] key = Some v.
Proof. cbn. rewrite decide_True by reflexivity. reflexivity. Qed.

Lemma configurationHandling_eq (env : Env) (testConfig : Config) (st : State) :
  configurationHandling env testConfig st
  = (Normal tt,
     push (configuration_results env (fs st))
          (with_files (configuration_files env (fs st) testConfig) st)).
Proof.
  unfold configurationHandling, configuration_results, configuration_files.
  unfold try_catch, bind at 1.
  rewrite fs_writeFile_eq, utf8_roundtrip_JSON_stringify.
  destruct (write_error env (fs st) configPath) as [e|].
  { destruct st; reflexivity. }
  unfold bind at 1. rewrite addResult_eq.
  unfold bind at 1. rewrite fs_readFile_eq. unfold read_file.
  destruct (fault env OpReadFile configPath) as [e|].
  { unfold lift, throw. rewrite addResult_eq, push_push. reflexivity. }
  cbn [fs push with_files]. rewrite lookup_insert_eq. cbn [lift ret].
  unfold bind at 1.
  rewrite JSON_parse_stringify. cbn [lift ret].
  unfold bind at 1. cbn [get_property]. rewrite own_property_single. cbn [lift ret].
  unfold strict_equals_string. rewrite bool_decide_eq_true_2 by reflexivity.
  unfold bind at 1. rewrite addResult_eq.
  unfold bind at 1. unfold fs_unlink.
  destruct (fault env OpUnlink configPath) as [e|].
  { rewrite addResult_eq, !push_push. reflexivity. }
  cbn [fs push with_files]. rewrite lookup_insert_eq.
  rewrite addResult_eq. unfold push, with_files, write_result, read_result,
    cleanup_result. cbn [fs results console]. rewrite <- !app_assoc. reflexivity.
Qed.

Lemma testToolSchema_eq (env : Env) (st : State) :
  testToolSchema env st = (Normal tt, push (schema_results env (fs st)) st).
Proof.
  unfold testToolSchema, schema_results, try_catch. unfold bind at 1.
  rewrite fs_readFile_eq.
  destruct (read_file env (fs st) (js "src/index.ts")) as [e|sourceCode]; [reflexivity|].
  cbn [lift ret]. unfold bind at 1.
  rewrite (for_of_push requiredElements _ (fun _ => element_result sourceCode)).
  - rewrite addResult_eq. rewrite push_push. reflexivity.
  - intros element st'. unfold element_result.
    destruct (includes sourceCode element); reflexivity.
Qed.

(* ===================================================================== *)
(** ** The Reporter and the orchestrator *)
(* ===================================================================== *)

Lemma prints_only_log (line : jsstring) : prints_only (console_log line).
Proof. intros st. exists [line]. reflexivity. Qed.

Lemma prints_only_bind (m k : M unit) :
  prints_only m -> prints_only k -> prints_only (m >> k).
Proof.
  intros Hm Hk st. destruct (Hm st) as [l1 H1].
  destruct (Hk (mkState (fs st) (results st) (console st ++ l1))) as [l2 H2].
  exists (l1 ++ l2). unfold bind. rewrite H1, H2. cbn. rewrite app_assoc. reflexivity.
Qed.

Lemma prints_only_for_of {A} (xs : list A) (body : A -> M unit) :
  (forall x, prints_only (body x)) -> prints_only (for_of xs body).
Proof.
  intros Hbody. induction xs as [|x xs IH].
  - intros st. exists []. destruct st. cbn. rewrite app_nil_r. reflexivity.
  - cbn [for_of]. apply prints_only_bind; [apply Hbody | exact IH].
Qed.

Lemma prints_only_then {B} (m : M unit) (k : M B) (st : State) :
  prints_only m ->
  exists lines, (m >> k) st = k (mkState (fs st) (results st) (console st ++ lines)).
Proof.
  intros Hm. destruct (Hm st) as [lines H]. exists lines. unfold bind. rewrite H. reflexivity.
Qed.

Lemma filter_length_all {A} (P : A -> Prop) `{!forall x, Decision (P x)} (l : list A) :
  length (filter P l) = length l <-> Forall P l.
Proof.
  induction l as [|x l IH]; [split; [constructor | reflexivity]|].
  pose proof (length_filter P l) as Hle.
  rewrite filter_cons. destruct (decide (P x)) as [Hx|Hx]; cbn [length].
  - rewrite Nat.succ_inj_wd, IH. split.
    + intros HF. constructor; assumption.
    + intros HF. inversion HF; assumption.
  - split; [lia|]. intros HF. inversion HF. contradiction.
Qed.

(** The Reporter prints, and ends the process with code 1 when a Result
    failed; it leaves the files and the log as they are. *)
Lemma printResults_eq (st : State) :
  exists lines,
    printResults st =
    (if decide (all_passed (results st)) then Normal tt else Exit 1%Z,
     mkState (fs st) (results st) (console st ++ lines)).
Proof.
  unfold printResults.
  set (count := N.of_nat (length (filter _ (results st)))).
  set (total := N.of_nat (length (results st))).
  assert (Hcount : count = total <-> all_passed (results st)).
  { unfold count, total, all_passed. rewrite <- filter_length_all.
    split; [apply Nat2N.inj | intros ->; reflexivity]. }
  repeat match goal with
  | |- exists _, (?m >> ?k) ?s = _ =>
      let l := fresh "l" in
      let H := fresh "H" in
      destruct (prints_only_then m k s) as [l H];
      [ first [ apply prints_only_log | apply prints_only_for_of; intros ?; apply prints_only_log ]
      | rewrite H; clear H; cbn [fs results console] ]
  end.
  destruct (N.eqb_spec count total) as [Heq|Hne].
  - rewrite decide_True by (apply Hcount, Heq).
    match goal with
    | |- exists _, ?m ?s = _ =>
        assert (Hp : prints_only m)
          by (repeat first [apply prints_only_bind | apply prints_only_log]);
        destruct (Hp s) as [l4 ->]
    end.
    cbn [fs results console]. eexists. rewrite <- !app_assoc. reflexivity.
  - rewrite decide_False by (intros Hall; apply Hne, Hcount, Hall).
    eexists. unfold bind, console_log, process_exit. cbn [fs results console].
    rewrite <- !app_assoc. reflexivity.
Qed.

(** [runAllTests] in terms of its checks: the Reporter decides when they
    all completed; an exception that leaves a check ends in the [catch] of
    the orchestrator; nothing runs after the process died or while a check
    is pending. *)
Lemma runAllTests_eq (env : Env) (st : State) :
  exists lines,
    runAllTests env st =
    match checks env (started st) with
    | (Normal _, st1) =>
        (if decide (all_passed (results st1)) then Normal tt else Exit 1%Z,
         mkState (fs st1) (results st1) (console st1 ++ lines))
    | (Throw e, st1) =>
        (Exit 1%Z, mkState (fs st1) (results st1) (console st1 ++ lines))
    | other => other
    end.
Proof.
  unfold runAllTests. unfold bind at 1. cbn [console_log]. fold (started st).
  unfold try_catch. unfold bind at 1.
  destruct (checks env (started st)) as [[[]|e|code|e|] st1].
  - destruct (printResults_eq st1) as [lines ->]. exists lines.
    destruct (decide (all_passed (results st1))); reflexivity.
  - eexists. reflexivity.
  - exists []. reflexivity.
  - exists []. reflexivity.
  - exists []. reflexivity.
Qed.

(** The five checks in sequence. *)
Lemma checks_eq (env : Env) (st : State) :
  checks env st =
  match spawn_build env with
  | inl e => (Throw e, push (early_log env (fs st)) st)
  | inr events =>
      match child_end events [] with
      | Closes code err =>
          (Normal tt,
           push (complete_log env (fs st) code err) (with_files (final_files env (fs st)) st))
      | Errors e => (Uncaught e, push (early_log env (fs st)) st)
      | NeverCloses => (Pending, push (early_log env (fs st)) st)
      end
  end.
Proof.
  unfold checks, early_log, complete_log, final_files.
  unfold bind at 1. rewrite testProjectStructure_eq.
  unfold bind at 1. rewrite testDependencies_eq, push_push.
  unfold bind at 1. rewrite testBuildProcess_eq.
  destruct (spawn_build env) as [e|events]; [reflexivity|].
  destruct (child_end events []) as [code err|e|]; [|reflexivity|reflexivity].
  unfold bind at 1. unfold testConfigurationHandling. rewrite configurationHandling_eq.
  rewrite testToolSchema_eq.
  unfold push, with_files. cbn [fs results console]. rewrite <- !app_assoc. reflexivity.
Qed.

(** A run: how it ends and the log it leaves. *)
Lemma run_eq (env : Env) (files : FileSystem) :
  match spawn_build env with
  | inl e =>
      (run env files).1 = Exit 1%Z /\ results (run env files).2 = early_log env files
  | inr events =>
      match child_end events [] with
      | Closes code err =>
          (run env files).1
            = (if decide (all_passed (complete_log env files code err))
               then Normal tt else Exit 1%Z) /\
          results (run env files).2 = complete_log env files code err /\
          fs (run env files).2 = final_files env files
      | Errors e =>
          (run env files).1 = Uncaught e /\ results (run env files).2 = early_log env files
      | NeverCloses =>
          (run env files).1 = Pending /\ results (run env files).2 = early_log env files
      end
  end.
Proof.
  unfold run. destruct (runAllTests_eq env (mkState files [] [])) as [lines ->].
  rewrite checks_eq. cbn [started fs results].
  destruct (spawn_build env) as [e|events]; [split; reflexivity|].
  destruct (child_end events []) as [code err|e|]; cbn [fst snd results push with_files fs app];
    repeat split; reflexivity.
Qed.

(** The Results the Config Round-Trip Check pushes. *)
Lemma testConfigurationHandling_log (env : Env) (st : State) :
  results (testConfigurationHandling env st).2
  = results st ++ configuration_results env (fs st).
Proof.
  unfold testConfigurationHandling. rewrite configurationHandling_eq. reflexivity.
Qed.

(** *** Files that a check does not look at *)

Section Removal.

Variables (env : Env) (files : FileSystem) (f : jsstring).

Lemma access_error_delete_ne (path : jsstring) :
  path <> f -> access_error env (delete f files) path = access_error env files path.
Proof.
  intros Hne. unfold access_error. rewrite lookup_delete_ne by congruence. reflexivity.
Qed.

Lemma accessible_delete_ne (path : jsstring) :
  path <> f -> accessible env (delete f files) path = accessible env files path.
Proof. intros Hne. unfold accessible. rewrite access_error_delete_ne by exact Hne. reflexivity. Qed.

Lemma accessible_delete_eq : accessible env (delete f files) f = false.
Proof.
  unfold accessible, access_error. rewrite lookup_delete_eq.
  destruct (fault env OpAccess f); reflexivity.
Qed.

Lemma read_file_delete_ne (path : jsstring) :
  path <> f -> read_file env (delete f files) path = read_file env files path.
Proof.
  intros Hne. unfold read_file. rewrite lookup_delete_ne by congruence. reflexivity.
Qed.

Lemma write_error_delete_ne (path : jsstring) :
  path <> f -> write_error env (delete f files) path = write_error env files path.
Proof.
  intros Hne. unfold write_error. rewrite lookup_delete_ne by congruence. reflexivity.
Qed.

Lemma structure_results_delete_ne (paths : list jsstring) :
  ~ In f paths ->
  map (structure_result env (delete f files)) paths = map (structure_result env files) paths.
Proof.
  intros Hnot. apply map_ext_in. intros path Hin. unfold structure_result.
  rewrite accessible_delete_ne; [reflexivity|]. intros ->. contradiction.
Qed.

Lemma dependencies_results_delete_ne :
  f <> js "package.json" -> f <> js "node_modules" ->
  dependencies_results env (delete f files) = dependencies_results env files.
Proof.
  intros H1 H2. unfold dependencies_results, manifest_dependencies, node_modules_result.
  rewrite read_file_delete_ne, accessible_delete_ne by congruence. reflexivity.
Qed.

Lemma build_result_delete_ne (code : option Z) (errorOutput : jsstring) :
  f <> js "dist" ->
  build_result env (delete f files) code errorOutput = build_result env files code errorOutput.
Proof.
  intros H. unfold build_result. rewrite accessible_delete_ne by congruence. reflexivity.
Qed.

Lemma configuration_results_delete_ne :
  f <> configPath ->
  configuration_results env (delete f files) = configuration_results env files.
Proof.
  intros H. unfold configuration_results. rewrite write_error_delete_ne by congruence.
  reflexivity.
Qed.

Lemma configuration_files_delete_ne (config : Config) :
  f <> configPath ->
  configuration_files env (delete f files) config
  = delete f (configuration_files env files config).
Proof.
  intros H. unfold configuration_files. rewrite write_error_delete_ne by congruence.
  destruct (write_error env files configPath); [reflexivity|].
  destruct (fault env OpReadFile configPath), (fault env OpUnlink configPath);
    rewrite <- (delete_insert_ne files) by congruence; try reflexivity.
  apply delete_delete.
Qed.

Lemma schema_results_delete_ne :
  f <> js "src/index.ts" -> schema_results env (delete f files) = schema_results env files.
Proof.
  intros H. unfold schema_results. rewrite read_file_delete_ne by congruence. reflexivity.
Qed.

End Removal.

Lemma requiredFiles_NoDup : NoDup requiredFiles.
Proof.
  unfold requiredFiles.
  repeat (apply NoDup_cons_2;
          [rewrite list_elem_of_In; cbn [In]; intros H;
           repeat (destruct H as [H|H]; [vm_compute in H; discriminate H|]); exact H |]).
  apply NoDup_nil_2.
Qed.

(** A required file sits once in the list. *)
Lemma requiredFiles_split (f : jsstring) :
  In f requiredFiles ->
  exists l1 l2, requiredFiles = l1 ++ f :: l2 /\ ~ In f l1 /\ ~ In f l2.
Proof.
  intros Hin. destruct (in_split _ _ Hin) as (l1 & l2 & Heq).
  exists l1, l2. split; [exact Heq|].
  pose proof requiredFiles_NoDup as Hnd. rewrite Heq in Hnd.
  apply NoDup_app in Hnd as (_ & Hdisj & Hnd2). apply NoDup_cons in Hnd2 as [Hnot2 _].
  split.
  - intros H1. apply (Hdisj f); [apply list_elem_of_In, H1 | left].
  - intros H2. apply Hnot2, list_elem_of_In, H2.
Qed.

(** No required file is one of the other paths the checks look at. *)
Lemma requiredFiles_other_paths (f : jsstring) :
  In f requiredFiles ->
  f <> js "node_modules" /\ f <> js "dist" /\ f <> configPath.
Proof.
  unfold requiredFiles. cbn [In]. intros H.
  repeat (destruct H as [<-|H]; [repeat split; intros E; vm_compute in E; discriminate E|]).
  contradiction.
Qed.

(** The Results of the Filesystem Probe with and without [f]. *)
Lemma structure_results_removal (env : Env) (files : FileSystem) (f : jsstring) :
  In f requiredFiles -> accessible env files f = true ->
  exists before after,
    structure_results env files = before ++ present_result f :: after /\
    structure_results env (delete f files) = before ++ missing_result f :: after.
Proof.
  intros Hin Hacc. destruct (requiredFiles_split f Hin) as (l1 & l2 & Heq & Hn1 & Hn2).
  exists (map (structure_result env files) l1), (map (structure_result env files) l2).
  assert (Hwith : structure_result env files f = present_result f)
    by (unfold structure_result; rewrite Hacc; reflexivity).
  assert (Hwithout : structure_result env (delete f files) f = missing_result f)
    by (unfold structure_result; rewrite accessible_delete_eq; reflexivity).
  unfold structure_results. rewrite Heq, !map_app. cbn [map].
  rewrite !structure_results_delete_ne, Hwith, Hwithout by assumption. split; reflexivity.
Qed.

Ltac other_name :=
  let H := fresh in
  intros H; vm_compute in H; discriminate H.

Lemma cleanup_passed_structure (env : Env) (files : FileSystem) :
  Forall cleanup_passed (structure_results env files).
Proof.
  apply Forall_map, Forall_forall. intros file _. unfold structure_result.
  destruct (accessible env files file); other_name.
Qed.

Lemma cleanup_passed_dependencies (env : Env) (files : FileSystem) :
  Forall cleanup_passed (dependencies_results env files).
Proof.
  unfold dependencies_results.
  destruct (manifest_dependencies env files) as [e|dependencies].
  - constructor; [other_name | constructor].
  - apply Forall_app. split.
    + apply Forall_map, Forall_forall. intros dep _. unfold dependency_result.
      destruct (truthy _); other_name.
    + constructor; [|constructor]. unfold node_modules_result.
      destruct (accessible _ _ _); other_name.
Qed.

Lemma cleanup_passed_build (env : Env) (files : FileSystem) (code : option Z)
    (errorOutput : jsstring) :
  cleanup_passed (build_result env files code errorOutput).
Proof.
  unfold build_result. destruct (decide _); [destruct (accessible _ _ _)|]; other_name.
Qed.

Lemma cleanup_passed_configuration (env : Env) (files : FileSystem) :
  Forall cleanup_passed (configuration_results env files).
Proof.
  unfold configuration_results.
  destruct (write_error _ _ _); [|destruct (fault env OpReadFile _);
    [|destruct (fault env OpUnlink _)]];
    repeat (constructor; [first [other_name | intros _; reflexivity]|]); constructor.
Qed.

Lemma cleanup_passed_schema (env : Env) (files : FileSystem) :
  Forall cleanup_passed (schema_results env files).
Proof.
  unfold schema_results. destruct (read_file _ _ _) as [e|sourceCode].
  - constructor; [other_name | constructor].
  - apply Forall_app. split.
    + apply Forall_map, Forall_forall. intros element _. unfold element_result.
      destruct (includes _ _); other_name.
    + constructor; [other_name | constructor].
Qed.

Lemma cleanup_passed_run (env : Env) (files : FileSystem) :
  Forall cleanup_passed (results (run env files).2).
Proof.
  pose proof (run_eq env files) as Hrun.
  assert (Hearly : Forall cleanup_passed (early_log env files)).
  { apply Forall_app. split;
      [apply cleanup_passed_structure | apply cleanup_passed_dependencies]. }
  destruct (spawn_build env) as [e|events].
  - destruct Hrun as [_ ->]. exact Hearly.
  - destruct (child_end events []) as [code err|e|].
    + destruct Hrun as (_ & -> & _). unfold complete_log.
      apply Forall_app; split; [apply cleanup_passed_structure|].
      apply Forall_app; split; [apply cleanup_passed_dependencies|].
      apply Forall_app; split; [constructor; [apply cleanup_passed_build | constructor]|].
      apply Forall_app; split; [apply cleanup_passed_configuration|].
      apply cleanup_passed_schema.
    + destruct Hrun as [_ ->]. exact Hearly.
    + destruct Hrun as [_ ->]. exact Hearly.
Qed.

(* ===================================================================== *)
(** ** Properties of the harness *)
(* ===================================================================== *)


(** C2, as stated, fails: when the file is written and cannot be read, the
    passing "Configuration - Write" Result is in the log before the
    aggregate one. *)
Lemma read_fault_leaves_write_result :
  fault Sample.unreadable_config OpReadFile configPath
    = Some (Sample.EACCES (js "open") configPath) /\
  results (testConfigurationHandling Sample.unreadable_config
             (mkState Sample.project [] [])).2
    = [write_result; configuration_failure (Sample.EACCES (js "open") configPath)] /\
  ~ collapses_to_aggregate Sample.unreadable_config (mkState Sample.project [] []).
Proof.
  assert (Hlog : results (testConfigurationHandling Sample.unreadable_config
                            (mkState Sample.project [] [])).2
                 = [write_result; configuration_failure (Sample.EACCES (js "open") configPath)]).
  { unfold testConfigurationHandling. rewrite configurationHandling_eq. reflexivity. }
  split; [reflexivity | split; [exact Hlog|]].
  intros [e He]. rewrite Hlog in He. discriminate He.
Qed.

(** C2, amended. The Results of the Config Round-Trip Check, by the first
    operation that faults: the aggregate failing Result, with the text of
    the fault, is the last one and follows the Results of the steps done
    before; without a fault the three Results of the steps are pushed. *)
Theorem config_fault_results (env : Env) (st : State) :
  results (testConfigurationHandling env st).2 =
  results st ++
  match write_error env (fs st) configPath with
  | Some e =>
      [mkResult (js "Configuration handling") false
         (cross_mark ++ js " Configuration test failed: " ++ error_toString e)]
  | None =>
      match fault env OpReadFile configPath with
      | Some e =>
          [write_result;
           mkResult (js "Configuration handling") false
             (cross_mark ++ js " Configuration test failed: " ++ error_toString e)]
      | None =>
          match fault env OpUnlink configPath with
          | Some e =>
              [write_result; read_result;
               mkResult (js "Configuration handling") false
                 (cross_mark ++ js " Configuration test failed: " ++ error_toString e)]
          | None => [write_result; read_result; cleanup_result]
          end
      end
  end.
Proof.
  rewrite testConfigurationHandling_log. reflexivity.
Qed.

(** C3, at a run where the file is written and cannot be read: the check
    returns normally and the file it wrote is still there. *)
Theorem read_fault_leaves_config_file :
  let st := mkState Sample.project [] [] in
  Sample.project !! configPath = None /\
  (testConfigurationHandling Sample.unreadable_config st).1 = Normal tt /\
  fs (testConfigurationHandling Sample.unreadable_config st).2 !! configPath
    = Some (File (JSON_stringify (mkConfig (js "test-api-key-for-integration-testing")))).
Proof.
  cbv zeta. unfold testConfigurationHandling. rewrite configurationHandling_eq.
  split; [reflexivity | split; reflexivity].
Qed.

(** The file is gone when the three operations succeed. *)
Lemma config_file_removed (env : Env) (st : State) :
  write_error env (fs st) configPath = None ->
  fault env OpReadFile configPath = None ->
  fault env OpUnlink configPath = None ->
  fs (testConfigurationHandling env st).2 !! configPath = None.
Proof.
  intros Hw Hr Hu. unfold testConfigurationHandling. rewrite configurationHandling_eq.
  cbn [snd fs push with_files]. unfold configuration_files. rewrite Hw, Hr, Hu.
  apply lookup_delete_eq.
Qed.

(** C4, at a run where [npm] cannot be started: the ['error'] event of the
    child has no listener, the process dies of the uncaught exception with
    code 1 after the first two checks, and the log has no Result of the
    build, of the configuration or of the schema. *)
Theorem spawn_failure_escapes_build_check :
  (testBuildProcess Sample.no_npm (mkState Sample.project [] [])).1
    = Uncaught Sample.spawn_enoent /\
  results (testBuildProcess Sample.no_npm (mkState Sample.project [] [])).2 = [] /\
  (run Sample.no_npm Sample.project).1 = Uncaught Sample.spawn_enoent /\
  exit_code (run Sample.no_npm Sample.project).1 = Some 1%Z /\
  results (run Sample.no_npm Sample.project).2
    = structure_results Sample.no_npm Sample.project
      ++ dependencies_results Sample.no_npm Sample.project /\
  Forall (fun r => passed r = true) (results (run Sample.no_npm Sample.project).2).
Proof.
  pose proof (run_eq Sample.no_npm Sample.project) as Hrun.
  cbn [spawn_build Sample.no_npm child_end] in Hrun.
  destruct Hrun as [Hend Hlog].
  split; [reflexivity | split; [reflexivity|]].
  split; [exact Hend | split; [rewrite Hend; reflexivity | split; [exact Hlog|]]].
  rewrite Hlog. vm_compute. repeat constructor.
Qed.

(** The other four checks always return normally: every exception raised
    inside them is caught inside them. *)
Lemma other_checks_return (env : Env) (st : State) :
  (testProjectStructure env st).1 = Normal tt /\
  (testDependencies env st).1 = Normal tt /\
  (testConfigurationHandling env st).1 = Normal tt /\
  (testToolSchema env st).1 = Normal tt.
Proof.
  rewrite testProjectStructure_eq, testDependencies_eq, testToolSchema_eq.
  unfold testConfigurationHandling. rewrite configurationHandling_eq.
  repeat split.
Qed.

(** C5. When the manifest cannot be read, is not JSON, or is JSON without a
    "dependencies" property, the Manifest Validator pushes exactly one
    Result: "Dependencies check", failed, with the text of the error in its
    message. The error is the one [readFile] or [JSON.parse] threw, or the
    TypeError of reading a property of a missing "dependencies". No
    Result of a dependency or of [node_modules] is pushed. *)
Theorem manifest_failure_single_result (env : Env) (st : State) :
  (exists e, read_file env (fs st) (js "package.json") = inl e) \/
  (exists text, read_file env (fs st) (js "package.json") = inr text /\
     ((exists e, JSON_parse text = inl e) \/
      (exists packageJson, JSON_parse text = inr packageJson /\
         property_or_undefined (Some packageJson) (js "dependencies") = None))) ->
  exists error,
    testDependencies env st
      = (Normal tt,
         push [mkResult (js "Dependencies check") false
                 (cross_mark ++ js " Failed to check dependencies: " ++ error_toString error)]
              st) /\
    (forall e, read_file env (fs st) (js "package.json") = inl e -> error = e) /\
    (forall text e, read_file env (fs st) (js "package.json") = inr text ->
       JSON_parse text = inl e -> error = e) /\
    (forall text packageJson, read_file env (fs st) (js "package.json") = inr text ->
       JSON_parse text = inr packageJson -> ename error = js "TypeError").
Proof.
  intros H. rewrite testDependencies_eq.
  unfold dependencies_results, manifest_dependencies.
  destruct H as [[e He] | (text & Htext & [[e He] | (packageJson & Hparse & Hnone)])].
  - rewrite He. exists e. split; [reflexivity|].
    split; [congruence | split; intros; congruence].
  - rewrite Htext, He. exists e. split; [reflexivity|].
    split; [congruence | split; intros; congruence].
  - rewrite Htext, Hparse. unfold property_or_undefined in Hnone.
    destruct (get_property (Some packageJson) (js "dependencies")) as [e|dependencies] eqn:Hget.
    + exists e. split; [reflexivity|].
      split; [congruence | split; [intros; congruence|]].
      intros _ _ _ _. destruct packageJson; cbn in Hget; try discriminate Hget.
      injection Hget as <-. reflexivity.
    + subst dependencies. cbn [get_property]. eexists. split; [reflexivity|].
      split; [congruence | split; [intros; congruence|]].
      reflexivity.
Qed.

Lemma manifest_failure_witness :
  exists error,
    testDependencies Sample.good_build (mkState Sample.bare_project [] [])
      = (Normal tt,
         push [mkResult (js "Dependencies check") false
                 (cross_mark ++ js " Failed to check dependencies: " ++ error_toString error)]
              (mkState Sample.bare_project [] [])) /\
    ename error = js "TypeError".
Proof.
  destruct (manifest_failure_single_result Sample.good_build
              (mkState Sample.bare_project [] [])) as (error & Hrun & _ & _ & Htype).
  - right. exists (js "{}"). split; [reflexivity|].
    right. exists (JObject []). split; reflexivity.
  - exists error. split; [exact Hrun|].
    apply (Htype (js "{}") (JObject [])); reflexivity.
Defined.

(** C6. Whatever the child wrote on its pipes, once it closes with [code]
    the Build Runner pushes exactly one Result, named "Build process": it
    passes when [code] is 0 and [dist] is there; when [code] is 0 and [dist]
    is not there it fails with a message that differs from every
    "Build failed" message; when [code] is not 0 it fails and its message
    ends with the text captured from the error pipe. *)
Theorem build_runner_case_analysis
    (env : Env) (st : State) (chunks : list (Stream * jsstring)) (code : option Z)
    (later : list ChildEvent) :
  spawn_build env = inr (data_events chunks ++ CloseEvent code :: later) ->
  exists r,
    testBuildProcess env st
      = (Normal tt, push [r] (with_files (build_effect env (fs st)) st)) /\
    name r = js "Build process" /\
    (code = Some 0%Z -> accessible env (build_effect env (fs st)) (js "dist") = true ->
     passed r = true) /\
    (code = Some 0%Z -> accessible env (build_effect env (fs st)) (js "dist") = false ->
     passed r = false /\
     message r = cross_mark ++ js " Dist directory not created" /\
     forall errorOutput, message r <> build_failed_message errorOutput) /\
    (code <> Some 0%Z ->
     passed r = false /\
     message r = build_failed_message (captured Stderr chunks) /\
     contains (message r) (captured Stderr chunks)).
Proof.
  intros Hspawn.
  exists (build_result env (build_effect env (fs st)) code (captured Stderr chunks)).
  split; [|split; [|split; [|split]]].
  - unfold testBuildProcess, bind. rewrite Hspawn. cbn [lift ret].
    rewrite dispatch_data. cbn [dispatch app]. rewrite on_close_eq. reflexivity.
  - unfold build_result. destruct (decide (code = Some 0%Z)); [|reflexivity].
    destruct (accessible _ _ _); reflexivity.
  - intros Hcode Hdist. unfold build_result.
    rewrite decide_True by exact Hcode. rewrite Hdist. reflexivity.
  - intros Hcode Hdist. unfold build_result.
    rewrite decide_True by exact Hcode. rewrite Hdist.
    split; [reflexivity | split; [reflexivity|]].
    intros errorOutput H. vm_compute in H. discriminate H.
  - intros Hcode. unfold build_result. rewrite decide_False by exact Hcode.
    split; [reflexivity | split; [reflexivity|]].
    exists (cross_mark ++ js " Build failed: "), []. cbn [message].
    unfold build_failed_message. rewrite app_nil_r, <- app_assoc. reflexivity.
Qed.

Lemma build_runner_witness :
  spawn_build Sample.good_build
    = inr (data_events [(Stdout, js "> tsc")] ++ CloseEvent (Some 0%Z) :: []) /\
  exists r,
    testBuildProcess Sample.good_build (mkState Sample.project [] [])
      = (Normal tt,
         push [r] (with_files (build_effect Sample.good_build Sample.project)
                              (mkState Sample.project [] []))) /\
    passed r = true.
Proof.
  split; [reflexivity|].
  destruct (build_runner_case_analysis Sample.good_build (mkState Sample.project [] [])
              [(Stdout, js "> tsc")] (Some 0%Z) [] eq_refl)
    as (r & Hrun & _ & Hpass & _).
  exists r. split; [exact Hrun | apply Hpass; reflexivity].
Defined.



(** C8, as stated, fails: without [package.json] the Manifest Validator
    pushes its one aggregate Result in place of five, in a project where
    the build does not depend on the file. *)
Lemma removing_manifest_changes_dependency_results :
  In (js "package.json") requiredFiles /\
  accessible Sample.good_build Sample.project (js "package.json") = true /\
  build_effect Sample.good_build (delete (js "package.json") Sample.project)
    = delete (js "package.json") (build_effect Sample.good_build Sample.project) /\
  ~ removal_isolated Sample.good_build Sample.project (js "package.json").
Proof.
  split; [left; reflexivity | split; [reflexivity | split]].
  - cbn [build_effect Sample.good_build]. symmetry. apply delete_insert_ne.
    intros E. vm_compute in E. discriminate E.
  - intros (before & after & H1 & H2).
    apply (f_equal length) in H1, H2. rewrite length_app in H1, H2. cbn [length] in H1, H2.
    assert (L1 : length (results (run Sample.good_build Sample.project).2) = 22%nat)
      by (vm_compute; reflexivity).
    assert (L2 : length (results (run Sample.good_build
                                    (delete (js "package.json") Sample.project)).2) = 18%nat)
      by (vm_compute; reflexivity).
    rewrite L1 in H1. rewrite L2 in H2. lia.
Qed.

(** C8, amended. Removing a required file that was there turns its own
    Result of the Filesystem Probe into a failing one and leaves the other
    Results of the probe as they were. When the file is neither
    [package.json] nor [src/index.ts] and the build does the same without
    it, the whole log of the run changes in that one Result only. *)
Theorem removing_required_file (env : Env) (files : FileSystem) (f : jsstring) :
  In f requiredFiles ->
  accessible env files f = true ->
  (forall log out,
     exists before after,
       results (testProjectStructure env (mkState files log out)).2
         = log ++ before ++ present_result f :: after /\
       results (testProjectStructure env (mkState (delete f files) log out)).2
         = log ++ before ++ missing_result f :: after) /\
  (f <> js "package.json" ->
   f <> js "src/index.ts" ->
   build_effect env (delete f files) = delete f (build_effect env files) ->
   removal_isolated env files f).
Proof.
  intros Hin Hacc.
  destruct (structure_results_removal env files f Hin Hacc) as (before & after & Hs1 & Hs2).
  destruct (requiredFiles_other_paths f Hin) as (Hnm & Hdist & Hcfg).
  split.
  - intros log out. exists before, after. rewrite !testProjectStructure_eq.
    cbn [snd push results fs]. rewrite Hs1, Hs2. split; reflexivity.
  - intros Hpkg Hsrc Hbuild. unfold removal_isolated.
    pose proof (run_eq env files) as R1. pose proof (run_eq env (delete f files)) as R2.
    assert (Hearly : early_log env files
                       = before ++ present_result f :: (after ++ dependencies_results env files) /\
                     early_log env (delete f files)
                       = before ++ missing_result f :: (after ++ dependencies_results env files)).
    { unfold early_log. rewrite Hs1, Hs2, dependencies_results_delete_ne by assumption.
      rewrite <- !app_assoc. split; reflexivity. }
    destruct Hearly as [He1 He2].
    destruct (spawn_build env) as [e|events].
    { destruct R1 as [_ ->], R2 as [_ ->]. eexists _, _. split; eassumption. }
    destruct (child_end events []) as [code err|e|].
    + destruct R1 as (_ & -> & _), R2 as (_ & -> & _).
      exists before,
        (after ++ dependencies_results env files ++
         [build_result env (build_effect env files) code err] ++
         configuration_results env (build_effect env files) ++
         schema_results env (final_files env files)).
      unfold complete_log, final_files.
      rewrite Hs1, Hs2, Hbuild.
      rewrite dependencies_results_delete_ne, build_result_delete_ne,
        configuration_results_delete_ne, configuration_files_delete_ne,
        schema_results_delete_ne by assumption.
      rewrite <- !app_assoc. split; reflexivity.
    + destruct R1 as [_ ->], R2 as [_ ->]. eexists _, _. split; eassumption.
    + destruct R1 as [_ ->], R2 as [_ ->]. eexists _, _. split; eassumption.
Qed.

Lemma removing_required_file_witness :
  In (js "README.md") requiredFiles /\
  accessible Sample.good_build Sample.project (js "README.md") = true /\
  removal_isolated Sample.good_build Sample.project (js "README.md").
Proof.
  assert (Hin : In (js "README.md") requiredFiles) by (do 3 right; left; reflexivity).
  split; [exact Hin | split; [reflexivity|]].
  apply (removing_required_file Sample.good_build Sample.project (js "README.md") Hin eq_refl).
  - intros E. vm_compute in E. discriminate E.
  - intros E. vm_compute in E. discriminate E.
  - cbn [build_effect Sample.good_build]. symmetry. apply delete_insert_ne.
    intros E. vm_compute in E. discriminate E.
Defined.

(** C9. When the source text is read, the Static Schema Check pushes the
    Results of the six required elements and then one Result named
    "MIME type handling"; that Result passes exactly when the text contains
    [getMimeType], [image/jpeg] or [image/png] as a substring. *)
Theorem mime_evidence_is_substring_disjunction
    (env : Env) (st : State) (sourceCode : jsstring) :
  fault env OpReadFile (js "src/index.ts") = None ->
  fs st !! js "src/index.ts" = Some (File sourceCode) ->
  exists elements r,
    testToolSchema env st = (Normal tt, push (elements ++ [r]) st) /\
    length elements = length requiredElements /\
    Forall (fun r' => name r' <> js "MIME type handling") elements /\
    name r = js "MIME type handling" /\
    (passed r = true <->
       contains sourceCode (js "getMimeType") \/
       contains sourceCode (js "image/jpeg") \/
       contains sourceCode (js "image/png")).
Proof.
  intros Hfault Hfile.
  exists (map (element_result sourceCode) requiredElements), (mime_result sourceCode).
  split; [|split; [|split; [|split]]].
  - rewrite testToolSchema_eq. unfold schema_results, read_file. rewrite Hfault, Hfile.
    reflexivity.
  - apply length_map.
  - apply Forall_map, Forall_forall. intros element _. unfold element_result.
    destruct (includes sourceCode element); cbn [name]; intros H; vm_compute in H;
      discriminate H.
  - reflexivity.
  - cbn [mime_result passed]. unfold hasMimeTypeLogic.
    rewrite !orb_true_iff, !includes_spec. unfold contains. tauto.
Qed.

Lemma mime_evidence_witness :
  exists elements r,
    testToolSchema Sample.good_build (mkState Sample.project [] [])
      = (Normal tt, push (elements ++ [r]) (mkState Sample.project [] [])) /\
    length elements = length requiredElements /\
    Forall (fun r' => name r' <> js "MIME type handling") elements /\
    name r = js "MIME type handling" /\
    (passed r = true <->
       contains Sample.source (js "getMimeType") \/
       contains Sample.source (js "image/jpeg") \/
       contains Sample.source (js "image/png")).
Proof.
  apply (mime_evidence_is_substring_disjunction
           Sample.good_build (mkState Sample.project [] []) Sample.source);
    reflexivity.
Defined.

(** C10. In the log of every run, a Result named "Configuration - Cleanup"
    passed. When the delete faults the check pushes no Result of that name:
    the fault is reported by the aggregate "Configuration handling". *)
Theorem cleanup_result_always_passes (env : Env) (files : FileSystem) :
  (forall r, In r (results (run env files).2) ->
     name r = js "Configuration - Cleanup" -> passed r = true) /\
  (forall st e pushed,
     fault env OpUnlink configPath = Some e ->
     results (testConfigurationHandling env st).2 = results st ++ pushed ->
     Forall (fun r => name r <> js "Configuration - Cleanup") pushed).
Proof.
  split.
  - intros r Hin. pose proof (cleanup_passed_run env files) as Hall.
    rewrite Forall_forall in Hall. apply Hall, list_elem_of_In, Hin.
  - intros st e pushed Hunlink Hlog. rewrite testConfigurationHandling_log in Hlog.
    apply app_inv_head in Hlog. subst pushed. unfold configuration_results. rewrite Hunlink.
    destruct (write_error _ _ _); [|destruct (fault env OpReadFile _)];
      repeat (constructor; [other_name|]); constructor.
Qed.

Lemma cleanup_result_witness :
  In cleanup_result (results (run Sample.good_build Sample.project).2) /\
  passed cleanup_result = true.
Proof.
  assert (Hin : In cleanup_result (results (run Sample.good_build Sample.project).2)).
  { vm_compute. do 14 right. left. reflexivity. }
  split; [exact Hin|].
  exact (proj1 (cleanup_result_always_passes Sample.good_build Sample.project)
               cleanup_result Hin eq_refl).
Defined.

(* ===================================================================== *)
(** ** Further properties of the harness *)
(* ===================================================================== *)

(** X1. The Filesystem Probe pushes one Result per required file, in the
    order of the list; the Result of a file passes exactly when
    [fs.access] succeeds on it, so a file that is there but may not be
    accessed counts as missing. The probe returns normally and changes
    neither the files nor the console. *)
Theorem structure_probe_one_result_per_file (env : Env) (st : State) :
  testProjectStructure env st =
  (Normal tt,
   mkState (fs st)
     (results st ++
      map (fun file =>
             mkResult (js "Project structure - " ++ file)
                      (accessible env (fs st) file)
                      (if accessible env (fs st) file
                       then check_mark ++ js " " ++ file ++ js " exists"
                       else cross_mark ++ js " " ++ file ++ js " missing"))
          requiredFiles)
     (console st)) /\
  (forall file e, fault env OpAccess file = Some e -> accessible env (fs st) file = false) /\
  (forall file, fs st !! file = None -> accessible env (fs st) file = false) /\
  (forall file, fault env OpAccess file = None -> is_Some (fs st !! file) ->
     accessible env (fs st) file = true).
Proof.
  split; [|split; [|split]].
  - rewrite testProjectStructure_eq. unfold push, structure_results. do 3 f_equal.
    apply map_ext. intros file. unfold structure_result, present_result, missing_result.
    destruct (accessible env (fs st) file); reflexivity.
  - intros file e H. unfold accessible, access_error. rewrite H. reflexivity.
  - intros file H. unfold accessible, access_error. rewrite H.
    destruct (fault env OpAccess file); reflexivity.
  - intros file H [node Hnode]. unfold accessible, access_error. rewrite H, Hnode.
    reflexivity.
Qed.

(** X2. With a manifest whose "dependencies" is an object, the Manifest
    Validator pushes one Result per required dependency, in order, and then
    the Result of [node_modules]. A dependency passes exactly when its entry
    is truthy: an entry that is absent, [null], [false], [0] or the empty
    string is reported missing. *)
Theorem dependency_results_by_truthiness
    (env : Env) (st : State) (text : jsstring) (packageJson : JSON)
    (props : list (jsstring * JSON)) :
  read_file env (fs st) (js "package.json") = inr text ->
  JSON_parse text = inr packageJson ->
  get_property (Some packageJson) (js "dependencies") = inr (Some (JObject props)) ->
  testDependencies env st =
  (Normal tt,
   push (map (fun dep =>
                mkResult (js "Dependencies - " ++ dep)
                         (truthy (own_property props dep))
                         (if truthy (own_property props dep)
                          then check_mark ++ js " " ++ dep ++ js " found"
                          else cross_mark ++ js " " ++ dep ++ js " missing"))
             requiredDeps
         ++ [mkResult (js "Dependencies - node_modules")
                      (accessible env (fs st) (js "node_modules"))
                      (if accessible env (fs st) (js "node_modules")
                       then check_mark ++ js " Dependencies installed"
                       else cross_mark ++ js " Run npm install first")])
        st) /\
  truthy None = false /\
  truthy (Some JNull) = false /\
  truthy (Some (JBool false)) = false /\
  truthy (Some (JString [])) = false /\
  (forall neg exp10, truthy (Some (JNumber neg 0 exp10)) = false).
Proof.
  intros Hread Hparse Hdeps. split; [|repeat split].
  rewrite testDependencies_eq. unfold dependencies_results, manifest_dependencies.
  rewrite Hread, Hparse, Hdeps. cbn [get_property]. do 2 f_equal. f_equal.
  - apply map_ext. intros dep. unfold dependency_result, property_or_undefined.
    cbn [get_property]. destruct (truthy (own_property props dep)); reflexivity.
  - unfold node_modules_result.
    destruct (accessible env (fs st) (js "node_modules")); reflexivity.
Qed.

Lemma dependency_results_witness :
  exists r,
    results (testDependencies Sample.good_build (mkState Sample.falsy_version_project [] [])).2
      !! 3%nat = Some r /\
    name r = js "Dependencies - zod" /\ passed r = false.
Proof.
  destruct (dependency_results_by_truthiness Sample.good_build
              (mkState Sample.falsy_version_project [] [])
              Sample.falsy_manifest
              (JObject [(js "dependencies",
                         JObject [(js "@modelcontextprotocol/sdk", JString (js "^1.0.0"));
                                  (js "@google/generative-ai", JString (js "^0.21.0"));
                                  (js "dotenv", JString (js "^16.4.5"));
                                  (js "zod", JString [])])])
              [(js "@modelcontextprotocol/sdk", JString (js "^1.0.0"));
               (js "@google/generative-ai", JString (js "^0.21.0"));
               (js "dotenv", JString (js "^16.4.5"));
               (js "zod", JString [])]
              eq_refl eq_refl eq_refl) as [Hrun _].
  rewrite Hrun. eexists. split; [reflexivity | split; reflexivity].
Defined.

(** X3. With a manifest whose "dependencies" is there but is not an object:
    [null] makes the first property read throw, and the check pushes its one
    aggregate Result with the TypeError; a string, a number, a boolean or an
    array has none of the required names, and the check reports the four
    dependencies missing, one Result each, and goes on to [node_modules]. *)
Theorem dependencies_not_an_object
    (env : Env) (st : State) (text : jsstring) (packageJson : JSON) (value : JSON) :
  read_file env (fs st) (js "package.json") = inr text ->
  JSON_parse text = inr packageJson ->
  get_property (Some packageJson) (js "dependencies") = inr (Some value) ->
  match value with
  | JObject _ => True
  | JNull =>
      testDependencies env st =
      (Normal tt,
       push [mkResult (js "Dependencies check") false
               (cross_mark ++ js " Failed to check dependencies: " ++
                error_toString
                  (TypeError (js "Cannot read properties of null (reading '"
                              ++ js "@modelcontextprotocol/sdk" ++ js "')")))] st)
  | _ =>
      exists installed,
        testDependencies env st =
        (Normal tt,
         push (map (fun dep =>
                      mkResult (js "Dependencies - " ++ dep) false
                               (cross_mark ++ js " " ++ dep ++ js " missing"))
                   requiredDeps ++ [installed]) st) /\
        name installed = js "Dependencies - node_modules"
  end.
Proof.
  intros Hread Hparse Hdeps. rewrite testDependencies_eq.
  unfold dependencies_results, manifest_dependencies. rewrite Hread, Hparse, Hdeps.
  destruct value; cbn [get_property]; try exact I; try reflexivity;
    (exists (node_modules_result env (fs st)); split;
     [reflexivity | unfold node_modules_result; destruct (accessible _ _ _); reflexivity]).
Qed.

Lemma dependencies_not_an_object_witness :
  exists installed,
    testDependencies Sample.good_build (mkState Sample.string_dependencies_project [] []) =
    (Normal tt,
     push (map (fun dep =>
                  mkResult (js "Dependencies - " ++ dep) false
                           (cross_mark ++ js " " ++ dep ++ js " missing"))
               requiredDeps ++ [installed])
          (mkState Sample.string_dependencies_project [] [])) /\
    name installed = js "Dependencies - node_modules".
Proof.
  exact (dependencies_not_an_object Sample.good_build
           (mkState Sample.string_dependencies_project [] [])
           (js "{" ++ QuoteJSONString (js "dependencies") ++ js ":"
            ++ QuoteJSONString (js "zod") ++ js "}")
           (JObject [(js "dependencies", JString (js "zod"))])
           (JString (js "zod")) eq_refl eq_refl eq_refl).
Defined.

(** X4. The Static Schema Check, by whether the source text can be read.
    When it cannot, the check pushes its one aggregate failing Result with
    the text of the error and no Result of an element. When it can, the check
    pushes one Result per required element, in order, each passing exactly
    when the element occurs in the text, and then the MIME Result: the
    Result of an element does not depend on the other elements. *)
Theorem schema_check_results (env : Env) (st : State) :
  match read_file env (fs st) (js "src/index.ts") with
  | inl e =>
      testToolSchema env st =
      (Normal tt,
       push [mkResult (js "Tool Schema validation") false
               (cross_mark ++ js " Schema test failed: " ++ error_toString e)] st)
  | inr sourceCode =>
      exists elements mime,
        testToolSchema env st = (Normal tt, push (elements ++ [mime]) st) /\
        map name elements = map (fun element => js "Tool Schema - " ++ element) requiredElements /\
        (forall i element r, requiredElements !! i = Some element -> elements !! i = Some r ->
           (passed r = true <-> contains sourceCode element)) /\
        name mime = js "MIME type handling"
  end.
Proof.
  rewrite testToolSchema_eq. unfold schema_results.
  destruct (read_file env (fs st) (js "src/index.ts")) as [e|sourceCode]; [reflexivity|].
  exists (map (element_result sourceCode) requiredElements), (mime_result sourceCode).
  split; [reflexivity | split; [|split; [|reflexivity]]].
  - rewrite map_map. apply map_ext. intros element. unfold element_result.
    destruct (includes sourceCode element); reflexivity.
  - intros i element r Hel Hr. rewrite list_lookup_fmap, Hel in Hr.
    injection Hr as <-. unfold element_result, contains. rewrite <- includes_spec.
    destruct (includes sourceCode element); cbn [passed]; split; congruence.
Qed.

(** X5. The Build Runner does not look at what the child writes on its
    standard output, nor at the events that follow ['close']: two children
    that write the same text on the error pipe and close with the same code
    give the same outcome. *)
Theorem build_result_ignores_stdout
    (flt : FsOp -> jsstring -> option JsError) (effect : FileSystem -> FileSystem)
    (st : State) (chunks chunks' : list (Stream * jsstring)) (code : option Z)
    (later later' : list ChildEvent) :
  captured Stderr chunks = captured Stderr chunks' ->
  testBuildProcess (mkEnv flt (inr (data_events chunks ++ CloseEvent code :: later)) effect) st
  = testBuildProcess (mkEnv flt (inr (data_events chunks' ++ CloseEvent code :: later')) effect) st.
Proof.
  intros Herr. unfold testBuildProcess, bind. cbn [spawn_build lift ret].
  rewrite !dispatch_data. cbn [dispatch app build_effect]. rewrite !on_close_eq.
  rewrite Herr. reflexivity.
Qed.

Lemma build_result_ignores_stdout_witness :
  testBuildProcess
    (mkEnv Sample.no_fault
       (inr (data_events [(Stdout, js "> tsc"); (Stderr, js "TS2304")]
             ++ CloseEvent (Some 2%Z) :: []))
       (fun files => files))
    (mkState Sample.project [] [])
  = testBuildProcess
      (mkEnv Sample.no_fault
         (inr (data_events [(Stderr, js "TS"); (Stdout, js "done"); (Stderr, js "2304")]
               ++ CloseEvent (Some 2%Z) :: [DataEvent Stderr (js "late")]))
         (fun files => files))
      (mkState Sample.project [] []).
Proof.
  exact (build_result_ignores_stdout Sample.no_fault (fun files => files)
           (mkState Sample.project [] [])
           [(Stdout, js "> tsc"); (Stderr, js "TS2304")]
           [(Stderr, js "TS"); (Stdout, js "done"); (Stderr, js "2304")]
           (Some 2%Z) [] [DataEvent Stderr (js "late")] eq_refl).
Defined.

(** X6. The build check has no timeout: when the child writes and never
    emits ['close'] nor ['error'], the promise of the check is never
    settled, the run does not end, no exit code is produced, and the log
    stays at the Results of the first two checks. *)
Theorem build_without_close_never_ends
    (env : Env) (files : FileSystem) (chunks : list (Stream * jsstring)) :
  spawn_build env = inr (data_events chunks) ->
  (run env files).1 = Pending /\
  exit_code (run env files).1 = None /\
  results (run env files).2
    = structure_results env files ++ dependencies_results env files /\
  fs (run env files).2 = files.
Proof.
  intros Hspawn.
  assert (Hend : forall err, child_end (data_events chunks) err = NeverCloses).
  { clear Hspawn. induction chunks as [|[[] data] chunks IH]; intros err; cbn;
      [reflexivity | apply IH | apply IH]. }
  unfold run. destruct (runAllTests_eq env (mkState files [] [])) as [lines ->].
  rewrite checks_eq, Hspawn, Hend. repeat split.
Qed.

Lemma build_without_close_witness :
  (run Sample.hanging_build Sample.project).1 = Pending /\
  exit_code (run Sample.hanging_build Sample.project).1 = None.
Proof.
  destruct (build_without_close_never_ends Sample.hanging_build Sample.project
              [(Stdout, js "> tsc"); (Stderr, js "warning")] eq_refl)
    as (Hend & Hcode & _).
  split; [exact Hend | exact Hcode].
Defined.



Lemma for_of_console_log {A} (xs : list A) (line : A -> jsstring) (st : State) :
  for_of xs (fun x => console_log (line x)) st
  = (Normal tt, mkState (fs st) (results st) (console st ++ map line xs)).
Proof.
  revert st. induction xs as [|x xs IH]; intros st.
  - destruct st. cbn. rewrite app_nil_r. reflexivity.
  - cbn [for_of map]. unfold bind. cbn [console_log]. rewrite IH.
    cbn [fs results console]. rewrite <- app_assoc. reflexivity.
Qed.

Lemma printResults_output (st : State) :
  printResults st =
  (if decide (all_passed (results st)) then Normal tt else Exit 1%Z,
   mkState (fs st) (results st) (console st ++ report (results st))).
Proof.
  unfold printResults, report, summary_line.
  set (count := N.of_nat (length (filter _ (results st)))).
  set (total := N.of_nat (length (results st))).
  assert (Hcount : count = total <-> all_passed (results st)).
  { unfold count, total, all_passed. rewrite <- filter_length_all.
    split; [apply Nat2N.inj | intros ->; reflexivity]. }
  unfold bind at 1 2. cbn [console_log fs results console].
  unfold bind at 1. rewrite (for_of_console_log (results st) report_line).
  cbn [fs results console]. unfold bind at 1 2. cbn [console_log fs results console].
  destruct (decide (all_passed (results st))) as [Hall|Hnot];
    destruct (N.eqb_spec count total) as [Heq|Hne];
    try (exfalso; tauto);
    unfold bind, console_log, process_exit; cbn [fs results console];
    rewrite <- !app_assoc; reflexivity.
Qed.

Lemma child_end_data (chunks : list (Stream * jsstring)) (code : option Z)
    (later : list ChildEvent) (errorOutput : jsstring) :
  child_end (data_events chunks ++ CloseEvent code :: later) errorOutput
  = Closes code (errorOutput ++ captured Stderr chunks).
Proof.
  revert errorOutput. induction chunks as [|[[] data] chunks IH]; intros errorOutput; cbn.
  - rewrite app_nil_r. reflexivity.
  - apply IH.
  - rewrite IH, <- app_assoc. reflexivity.
Qed.

(** A run whose build closes: how it ends and the state it leaves. *)
Lemma completed_run_eq (env : Env) (files : FileSystem) (chunks : list (Stream * jsstring))
    (code : option Z) (later : list ChildEvent) :
  spawn_build env = inr (data_events chunks ++ CloseEvent code :: later) ->
  run env files =
  let log := complete_log env files code (captured Stderr chunks) in
  (if decide (all_passed log) then Normal tt else Exit 1%Z,
   mkState (final_files env files) log (banner :: report log)).
Proof.
  intros Hspawn. unfold run, runAllTests. unfold bind at 1. cbn [console_log].
  unfold try_catch. unfold bind at 1.
  rewrite checks_eq, Hspawn, child_end_data. cbn [app].
  rewrite printResults_output. cbn [push with_files fs results console app].
  destruct (decide (all_passed _)); reflexivity.
Qed.

(** X8. The Config Round-Trip Check touches one path only: every other
    path is after the check what it was before, whatever faults occur. When
    its three operations succeed nothing is left at the path of the
    synthetic configuration, even if a file was there before the check: the
    check overwrites and removes it. When the write faults, the files are
    unchanged. *)
Theorem config_check_touches_one_path (env : Env) (st : State) :
  (forall path, path <> configPath ->
     fs (testConfigurationHandling env st).2 !! path = fs st !! path) /\
  (write_error env (fs st) configPath = None ->
   fault env OpReadFile configPath = None ->
   fault env OpUnlink configPath = None ->
   fs (testConfigurationHandling env st).2 !! configPath = None) /\
  (forall e, write_error env (fs st) configPath = Some e ->
     fs (testConfigurationHandling env st).2 = fs st).
Proof.
  unfold testConfigurationHandling. rewrite configurationHandling_eq.
  cbn [snd fs push with_files]. unfold configuration_files.
  split; [|split].
  - intros path Hne.
    destruct (write_error env (fs st) configPath); [reflexivity|].
    destruct (fault env OpReadFile configPath), (fault env OpUnlink configPath);
      rewrite ?lookup_delete_ne by congruence;
      rewrite lookup_insert_ne by congruence; reflexivity.
  - intros -> -> ->. apply lookup_delete_eq.
  - intros e ->. reflexivity.
Qed.

Lemma config_check_stale_file_witness :
  Sample.stale_config_project !! configPath = Some (File (js "stale")) /\
  fs (testConfigurationHandling Sample.good_build
        (mkState Sample.stale_config_project [] [])).2 !! configPath = None.
Proof.
  split; [reflexivity|].
  apply (proj1 (proj2 (config_check_touches_one_path Sample.good_build
                         (mkState Sample.stale_config_project [] []))));
    reflexivity.
Defined.

(** X9. In a run whose build closes, the harness itself changes no file
    but its synthetic configuration: at every other path the files the run
    leaves are the files the build left. *)
Theorem run_touches_only_config_file
    (env : Env) (files : FileSystem) (chunks : list (Stream * jsstring))
    (code : option Z) (later : list ChildEvent) (path : jsstring) :
  spawn_build env = inr (data_events chunks ++ CloseEvent code :: later) ->
  path <> configPath ->
  fs (run env files).2 !! path = build_effect env files !! path.
Proof.
  intros Hspawn Hne. rewrite (completed_run_eq env files chunks code later Hspawn).
  cbn [snd fs]. unfold final_files, configuration_files.
  destruct (write_error env (build_effect env files) configPath); [reflexivity|].
  destruct (fault env OpReadFile configPath), (fault env OpUnlink configPath);
    rewrite ?lookup_delete_ne by congruence;
    rewrite lookup_insert_ne by congruence; reflexivity.
Qed.

Lemma run_touches_only_config_file_witness :
  fs (run Sample.good_build Sample.project).2 !! js "README.md"
  = Some (File (js "# nano-banana")).
Proof.
  rewrite (run_touches_only_config_file Sample.good_build Sample.project
             [(Stdout, js "> tsc")] (Some 0%Z) [] (js "README.md") eq_refl).
  - reflexivity.
  - intros E. vm_compute in E. discriminate E.
Defined.

(** X10. The log is append-only and the checks are silent: each of the
    five checks, however it ends, leaves the Results that were in the log in
    place and in order, adds its own after them, and prints nothing. *)
Theorem checks_extend_the_log (env : Env) (st : State) :
  (exists pushed, results (testProjectStructure env st).2 = results st ++ pushed) /\
  (exists pushed, results (testDependencies env st).2 = results st ++ pushed) /\
  (exists pushed, results (testBuildProcess env st).2 = results st ++ pushed) /\
  (exists pushed, results (testConfigurationHandling env st).2 = results st ++ pushed) /\
  (exists pushed, results (testToolSchema env st).2 = results st ++ pushed) /\
  (exists pushed, results (checks env st).2 = results st ++ pushed) /\
  console (testProjectStructure env st).2 = console st /\
  console (testDependencies env st).2 = console st /\
  console (testBuildProcess env st).2 = console st /\
  console (testConfigurationHandling env st).2 = console st /\
  console (testToolSchema env st).2 = console st /\
  console (checks env st).2 = console st.
Proof.
  rewrite testProjectStructure_eq, testDependencies_eq, testToolSchema_eq,
    testBuildProcess_eq, checks_eq.
  unfold testConfigurationHandling. rewrite configurationHandling_eq.
  assert (Hnil : results st = results st ++ []) by (rewrite app_nil_r; reflexivity).
  destruct (spawn_build env) as [e|events];
    [|destruct (child_end events []) as [code err|e|]];
    cbn [snd push with_files results console];
    repeat (split; [first [eexists; reflexivity | exists []; exact Hnil | reflexivity]|]);
    reflexivity.
Qed.

(** X11. The console of a run whose build closes: the banner, the heading
    and a rule, one line per Result of the log in the order of the log
    (glyph by [passed], then the message), a rule, the summary with the
    number of passing Results and the number of Results, and the closing
    lines: six after a log that passed, one warning otherwise. No Result is
    left out. *)
Theorem completed_run_console
    (env : Env) (files : FileSystem) (chunks : list (Stream * jsstring))
    (code : option Z) (later : list ChildEvent) :
  spawn_build env = inr (data_events chunks ++ CloseEvent code :: later) ->
  exists closing,
    console (run env files).2 =
    [banner; [0x0A; 0xD83D; 0xDCCB] ++ js " Integration Test Results:"; rule]
    ++ map report_line (results (run env files).2)
    ++ [rule; summary_line (results (run env files).2)]
    ++ closing /\
    length closing = (if decide (all_passed (results (run env files).2)) then 6 else 1)%nat.
Proof.
  intros Hspawn. rewrite (completed_run_eq env files chunks code later Hspawn).
  cbn [snd results console]. unfold report.
  eexists. split; [reflexivity|].
  destruct (decide (all_passed _)); reflexivity.
Qed.

Lemma completed_run_console_witness :
  In (summary_line (results (run Sample.good_build Sample.project).2))
     (console (run Sample.good_build Sample.project).2).
Proof.
  destruct (completed_run_console Sample.good_build Sample.project
              [(Stdout, js "> tsc")] (Some 0%Z) [] eq_refl) as (closing & -> & _).
  apply in_or_app. right. apply in_or_app. right. right. left. reflexivity.
Defined.

(** *** Names and sizes of the logs *)

Lemma structure_names (env : Env) (files : FileSystem) :
  map name (structure_results env files)
  = map (fun file => js "Project structure - " ++ file) requiredFiles.
Proof.
  unfold structure_results. rewrite map_map. apply map_ext. intros file.
  unfold structure_result. destruct (accessible env files file); reflexivity.
Qed.

Lemma dependencies_names (env : Env) (files : FileSystem) :
  map name (dependencies_results env files) = [js "Dependencies check"] \/
  map name (dependencies_results env files)
  = map (fun dep => js "Dependencies - " ++ dep) requiredDeps ++ [js "Dependencies - node_modules"].
Proof.
  unfold dependencies_results.
  destruct (manifest_dependencies env files) as [e|dependencies]; [left; reflexivity|].
  right. rewrite map_app, map_map. f_equal.
  - apply map_ext. intros dep. unfold dependency_result.
    destruct (truthy _); reflexivity.
  - unfold node_modules_result. destruct (accessible _ _ _); reflexivity.
Qed.

Lemma build_name (env : Env) (files : FileSystem) (code : option Z) (err : jsstring) :
  name (build_result env files code err) = js "Build process".
Proof.
  unfold build_result. destruct (decide _); [destruct (accessible _ _ _)|]; reflexivity.
Qed.

Lemma configuration_names (env : Env) (files : FileSystem) :
  map name (configuration_results env files) = [js "Configuration handling"] \/
  map name (configuration_results env files)
  = [js "Configuration - Write"; js "Configuration handling"] \/
  map name (configuration_results env files)
  = [js "Configuration - Write"; js "Configuration - Read"; js "Configuration handling"] \/
  map name (configuration_results env files)
  = [js "Configuration - Write"; js "Configuration - Read"; js "Configuration - Cleanup"].
Proof.
  unfold configuration_results.
  destruct (write_error _ _ _); [left; reflexivity|].
  destruct (fault env OpReadFile _); [right; left; reflexivity|].
  destruct (fault env OpUnlink _); [right; right; left | right; right; right]; reflexivity.
Qed.

Lemma schema_names (env : Env) (files : FileSystem) :
  map name (schema_results env files) = [js "Tool Schema validation"] \/
  map name (schema_results env files)
  = map (fun element => js "Tool Schema - " ++ element) requiredElements
    ++ [js "MIME type handling"].
Proof.
  unfold schema_results.
  destruct (read_file _ _ _) as [e|sourceCode]; [left; reflexivity|].
  right. rewrite map_app, map_map. f_equal.
  apply map_ext. intros element. unfold element_result.
  destruct (includes _ _); reflexivity.
Qed.

Ltac decide_NoDup :=
  match goal with
  | |- NoDup ?l => apply (bool_decide_unpack (NoDup l)); vm_compute; exact I
  end.

Lemma early_log_names_NoDup (env : Env) (files : FileSystem) :
  NoDup (map name (early_log env files)).
Proof.
  unfold early_log. rewrite map_app, structure_names.
  destruct (dependencies_names env files) as [-> | ->]; decide_NoDup.
Qed.

Lemma complete_log_names_NoDup (env : Env) (files : FileSystem) (code : option Z)
    (err : jsstring) :
  NoDup (map name (complete_log env files code err)).
Proof.
  unfold complete_log. rewrite !map_app, structure_names. cbn [map]. rewrite build_name.
  destruct (dependencies_names env files) as [-> | ->];
    destruct (configuration_names env (build_effect env files)) as [-> | [-> | [-> | ->]]];
    destruct (schema_names env (final_files env files)) as [-> | ->];
    decide_NoDup.
Qed.

(** X12. In the log of every run, no two Results have the same name. *)
Theorem result_names_are_distinct (env : Env) (files : FileSystem) :
  NoDup (map name (results (run env files).2)).
Proof.
  pose proof (run_eq env files) as Hrun.
  destruct (spawn_build env) as [e|events].
  - destruct Hrun as [_ ->]. apply early_log_names_NoDup.
  - destruct (child_end events []) as [code err|e|].
    + destruct Hrun as (_ & -> & _). apply complete_log_names_NoDup.
    + destruct Hrun as [_ ->]. apply early_log_names_NoDup.
    + destruct Hrun as [_ ->]. apply early_log_names_NoDup.
Qed.



(** X14. [runAllTests] never rejects: whatever the environment, the run
    does not end by an exception, so the [.catch(console.error)] of the last
    line of the script never fires. *)
Theorem run_never_rejects (env : Env) (files : FileSystem) (e : JsError) :
  (run env files).1 <> Throw e.
Proof.
  pose proof (run_eq env files) as Hrun.
  destruct (spawn_build env) as [e'|events].
  - destruct Hrun as [-> _]. discriminate.
  - destruct (child_end events []) as [code err|e'|].
    + destruct Hrun as (-> & _). destruct (decide _); discriminate.
    + destruct Hrun as [-> _]. discriminate.
    + destruct Hrun as [-> _]. discriminate.
Qed.

(** X15. End to end, for a project in order: the six files can be
    accessed, the manifest declares the four dependencies with truthy
    entries, [node_modules] is there, the build closes with code 0 and
    leaves [dist], the synthetic configuration can be written, read and
    removed, and the source names the six elements and one MIME
    alternative. Then the log holds 22 Results, all passed, the Reporter
    prints "22/22 tests passed" and the process ends with code 0. *)
Theorem valid_project_passes
    (env : Env) (files : FileSystem) (chunks : list (Stream * jsstring))
    (later : list ChildEvent) (text : jsstring) (packageJson : JSON)
    (props : list (jsstring * JSON)) (sourceCode : jsstring) :
  (forall file, In file requiredFiles -> accessible env files file = true) ->
  read_file env files (js "package.json") = inr text ->
  JSON_parse text = inr packageJson ->
  get_property (Some packageJson) (js "dependencies") = inr (Some (JObject props)) ->
  (forall dep, In dep requiredDeps -> truthy (own_property props dep) = true) ->
  accessible env files (js "node_modules") = true ->
  spawn_build env = inr (data_events chunks ++ CloseEvent (Some 0%Z) :: later) ->
  accessible env (build_effect env files) (js "dist") = true ->
  write_error env (build_effect env files) configPath = None ->
  fault env OpReadFile configPath = None ->
  fault env OpUnlink configPath = None ->
  read_file env (build_effect env files) (js "src/index.ts") = inr sourceCode ->
  (forall element, In element requiredElements -> includes sourceCode element = true) ->
  hasMimeTypeLogic sourceCode = true ->
  exit_code (run env files).1 = Some 0%Z /\
  length (results (run env files).2) = 22%nat /\
  all_passed (results (run env files).2) /\
  In ([0xD83D; 0xDCCA] ++ js " Results: 22/22 tests passed") (console (run env files).2).
Proof.
  intros Hfiles Hread Hparse Hdeps Htruthy Hmodules Hspawn Hdist Hwrite Hrd Hunlink
    Hsource Helements Hmime.
  rewrite (completed_run_eq env files chunks (Some 0%Z) later Hspawn). cbv zeta.
  set (log := complete_log env files (Some 0%Z) (captured Stderr chunks)).
  assert (Hsrc : read_file env (final_files env files) (js "src/index.ts") = inr sourceCode).
  { rewrite <- Hsource. unfold final_files, configuration_files, read_file.
    rewrite Hwrite, Hrd, Hunlink.
    rewrite lookup_delete_ne by (intros E; vm_compute in E; discriminate E).
    rewrite lookup_insert_ne by (intros E; vm_compute in E; discriminate E).
    reflexivity. }
  assert (Hlog : log =
            map present_result requiredFiles ++
            (map (fun dep => mkResult (js "Dependencies - " ++ dep) true
                               (check_mark ++ js " " ++ dep ++ js " found")) requiredDeps
             ++ [mkResult (js "Dependencies - node_modules") true
                          (check_mark ++ js " Dependencies installed")]) ++
            [mkResult (js "Build process") true (check_mark ++ js " Build successful")] ++
            [write_result; read_result; cleanup_result] ++
            (map (fun element => mkResult (js "Tool Schema - " ++ element) true
                                   (check_mark ++ js " " ++ element ++ js " found"))
                 requiredElements
             ++ [mkResult (js "MIME type handling") true
                          (check_mark ++ js " MIME type logic found")])).
  { subst log. unfold complete_log. f_equal; [|f_equal; [|f_equal; [|f_equal]]].
    - unfold structure_results. apply map_ext_in. intros file Hin.
      unfold structure_result. rewrite (Hfiles file Hin). reflexivity.
    - unfold dependencies_results, manifest_dependencies.
      rewrite Hread, Hparse, Hdeps. cbn [get_property]. f_equal.
      + apply map_ext_in. intros dep Hin. unfold dependency_result, property_or_undefined.
        cbn [get_property]. rewrite (Htruthy dep Hin). reflexivity.
      + unfold node_modules_result. rewrite Hmodules. reflexivity.
    - unfold build_result. rewrite decide_True by reflexivity. rewrite Hdist. reflexivity.
    - unfold configuration_results. rewrite Hwrite, Hrd, Hunlink. reflexivity.
    - unfold schema_results. rewrite Hsrc. f_equal.
      + apply map_ext_in. intros element Hin. unfold element_result.
        rewrite (Helements element Hin). reflexivity.
      + unfold mime_result. rewrite Hmime. reflexivity. }
  assert (Hlen : length log = 22%nat).
  { rewrite Hlog. rewrite !length_app, !length_map. reflexivity. }
  assert (Hall : all_passed log).
  { rewrite Hlog. unfold all_passed.
    apply Forall_app; split; [apply Forall_map, Forall_forall; intros; reflexivity|].
    apply Forall_app; split;
      [apply Forall_app; split;
         [apply Forall_map, Forall_forall; intros; reflexivity | repeat constructor]|].
    apply Forall_app; split; [repeat constructor|].
    apply Forall_app; split; [repeat constructor|].
    apply Forall_app; split;
      [apply Forall_map, Forall_forall; intros; reflexivity | repeat constructor]. }
  rewrite decide_True by exact Hall. cbn [fst snd results console exit_code].
  split; [reflexivity | split; [exact Hlen | split; [exact Hall|]]].
  right. unfold report. apply in_or_app. right. apply in_or_app. right.
  apply in_or_app. left. right. left.
  unfold summary_line.
  rewrite (proj2 (filter_length_all (fun r => passed r = true) log) Hall), Hlen.
  reflexivity.
Qed.

Lemma valid_project_witness :
  exit_code (run Sample.good_build Sample.project).1 = Some 0%Z /\
  length (results (run Sample.good_build Sample.project).2) = 22%nat /\
  all_passed (results (run Sample.good_build Sample.project).2) /\
  In ([0xD83D; 0xDCCA] ++ js " Results: 22/22 tests passed")
     (console (run Sample.good_build Sample.project).2).
Proof.
  apply (valid_project_passes Sample.good_build Sample.project
           [(Stdout, js "> tsc")] [] Sample.manifest
           (JObject [(js "name", JString (js "nano-banana"));
                     (js "dependencies",
                      JObject [(js "@modelcontextprotocol/sdk", JString (js "^1.0.0"));
                               (js "@google/generative-ai", JString (js "^0.21.0"));
                               (js "dotenv", JString (js "^16.4.5"));
                               (js "zod", JString (js "^3.23.8"))])])
           [(js "@modelcontextprotocol/sdk", JString (js "^1.0.0"));
            (js "@google/generative-ai", JString (js "^0.21.0"));
            (js "dotenv", JString (js "^16.4.5"));
            (js "zod", JString (js "^3.23.8"))]
           Sample.source);
    try reflexivity;
    intros x Hin; cbn [In requiredFiles requiredDeps requiredElements] in Hin;
    repeat (destruct Hin as [<-|Hin]; [reflexivity|]); contradiction.
Defined.

(** X16. The log of a run whose build closes is the concatenation, in the
    order structure, dependencies, build, configuration, schema, of what
    each check pushes when it runs alone on an empty log: the first three
    on the files of the project, the configuration check on the files the
    build left, the schema check on the files the configuration check left.
    What a check pushes depends on the files and not on the Results that
    are already in the log. *)
Theorem log_is_concatenation_of_checks
    (env : Env) (files : FileSystem) (chunks : list (Stream * jsstring))
    (code : option Z) (later : list ChildEvent) :
  spawn_build env = inr (data_events chunks ++ CloseEvent code :: later) ->
  let alone := fun (check : M unit) (fls : FileSystem) => check (mkState fls [] []) in
  results (run env files).2 =
  results (alone (testProjectStructure env) files).2 ++
  results (alone (testDependencies env) files).2 ++
  results (alone (testBuildProcess env) files).2 ++
  results (alone (testConfigurationHandling env) (build_effect env files)).2 ++
  results (alone (testToolSchema env)
             (fs (alone (testConfigurationHandling env) (build_effect env files)).2)).2.
Proof.
  intros Hspawn alone. subst alone. cbv beta.
  rewrite (completed_run_eq env files chunks code later Hspawn).
  rewrite testProjectStructure_eq, testDependencies_eq, testBuildProcess_eq, Hspawn,
    child_end_data.
  unfold testConfigurationHandling. rewrite configurationHandling_eq, testToolSchema_eq.
  reflexivity.
Qed.

Lemma log_is_concatenation_witness :
  results (run Sample.good_build Sample.project).2 =
  results (testProjectStructure Sample.good_build (mkState Sample.project [] [])).2 ++
  results (testDependencies Sample.good_build (mkState Sample.project [] [])).2 ++
  results (testBuildProcess Sample.good_build (mkState Sample.project [] [])).2 ++
  results (testConfigurationHandling Sample.good_build
             (mkState (build_effect Sample.good_build Sample.project) [] [])).2 ++
  results (testToolSchema Sample.good_build
             (mkState (fs (testConfigurationHandling Sample.good_build
                             (mkState (build_effect Sample.good_build Sample.project) [] [])).2)
                      [] [])).2.
Proof.
  exact (log_is_concatenation_of_checks Sample.good_build Sample.project
           [(Stdout, js "> tsc")] (Some 0%Z) [] eq_refl).
Defined.

